(** * Relative Rotation Graph toolkit: a shallow embedding of
      [Prediction/rrg_toolkit.py] and the properties of its core pipeline.

    Numbers.  The toolkit computes on IEEE doubles held in pandas series.
    They are modelled as extended reals: a finite double is an exact real
    number (no rounding, no overflow, a single zero), and the three special
    values [nan], [inf] and [-inf] are kept, because the code produces them
    (the head of every rolling mean is [nan], a division by zero gives [nan]
    or an infinity) and branches on them (every comparison with [nan] is
    false).  A theorem below that turns on the value of a sum, a product,
    a quotient, a square root or a trigonometric function is therefore a
    statement of exact real arithmetic, and says so; on doubles it holds
    up to rounding and overflow.  The theorems on comparisons with zero,
    subscripts, missing values, exceptions and the loops do not turn on it.

    Containers.  A pandas [Series] is the list of its (timestamp, value)
    pairs in index order; a [DataFrame] is the ordered list of its named
    columns, whose labels are taken to be distinct (for a repeated label
    pandas hands out a frame, not a series, and the toolkit does not run
    through).  The columns of one frame share their index, so arithmetic
    between two of them pairs the values by position.  An integer subscript
    on a series indexed by dates is positional, and, as for every Python
    sequence, a negative position counts from the end. *)

From Stdlib Require Import Reals Lra Lia ZArith String Bool Arith List.
Import ListNotations.

Open Scope R_scope.

(** ** Doubles as extended reals *)

Module PyFloat.

Inductive float : Type :=
| NaN : float
| PInf : float
| NInf : float
| Fin (r : R).

Definition is_finite (a : float) : bool :=
  match a with Fin _ => true | _ => false end.

Definition Rleb (a b : R) : bool := if Rle_dec a b then true else false.
Definition Rltb (a b : R) : bool := if Rlt_dec a b then true else false.
Definition Reqb (a b : R) : bool := if Req_dec_T a b then true else false.

(** [a <= b], [a < b], [a >= b]: false as soon as one side is [nan]. *)
Definition fle (a b : float) : bool :=
  match a, b with
  | NaN, _ | _, NaN => false
  | NInf, _ => true
  | _, PInf => true
  | PInf, _ => false
  | Fin _, NInf => false
  | Fin x, Fin y => Rleb x y
  end.

Definition flt (a b : float) : bool :=
  match a, b with
  | NaN, _ | _, NaN => false
  | _, NInf => false
  | PInf, _ => false
  | NInf, _ => true
  | Fin _, PInf => true
  | Fin x, Fin y => Rltb x y
  end.

Definition fge (a b : float) : bool := fle b a.

Definition fneg (a : float) : float :=
  match a with
  | NaN => NaN
  | PInf => NInf
  | NInf => PInf
  | Fin x => Fin (- x)
  end.

Definition fadd (a b : float) : float :=
  match a, b with
  | NaN, _ | _, NaN => NaN
  | PInf, NInf | NInf, PInf => NaN
  | PInf, _ | _, PInf => PInf
  | NInf, _ | _, NInf => NInf
  | Fin x, Fin y => Fin (x + y)
  end.

Definition fsub (a b : float) : float := fadd a (fneg b).

(** The infinity whose sign is that of [x] times the sign of a (positive
    when [pos]) infinite factor; [nan] for [x = 0]. *)
Definition inf_times (pos : bool) (x : R) : float :=
  if Reqb x 0 then NaN
  else if Bool.eqb pos (Rltb 0 x) then PInf else NInf.

Definition fmul (a b : float) : float :=
  match a, b with
  | NaN, _ | _, NaN => NaN
  | PInf, PInf | NInf, NInf => PInf
  | PInf, NInf | NInf, PInf => NInf
  | PInf, Fin x | Fin x, PInf => inf_times true x
  | NInf, Fin x | Fin x, NInf => inf_times false x
  | Fin x, Fin y => Fin (x * y)
  end.

(** Array division, as numpy and pandas do it: no exception, a zero
    divisor gives [nan] for [0/0] and an infinity otherwise. *)
Definition fdiv (a b : float) : float :=
  match a, b with
  | NaN, _ | _, NaN => NaN
  | (PInf | NInf), (PInf | NInf) => NaN
  | PInf, Fin y => if Rltb y 0 then NInf else PInf
  | NInf, Fin y => if Rltb y 0 then PInf else NInf
  | Fin _, (PInf | NInf) => Fin 0
  | Fin x, Fin y =>
      if Reqb y 0 then
        if Reqb x 0 then NaN else if Rltb 0 x then PInf else NInf
      else Fin (x / y)
  end.

(** [a] is a positive real number. *)
Definition positive (a : float) : Prop := exists r, a = Fin r /\ 0 < r.

(** The value of [a / a]: 1 for a real number other than zero, and [nan]
    for zero, for an infinity and for [nan]. *)
Definition self_ratio (a : float) : float :=
  match a with
  | Fin x => if Reqb x 0 then NaN else Fin 1
  | _ => NaN
  end.

(** [a ** 2] *)
Definition fsquare (a : float) : float := fmul a a.

End PyFloat.
Export PyFloat.

(** ** The numpy functions the toolkit calls *)

Module Numpy.

Definition sqrt (a : float) : float :=
  match a with
  | NaN | NInf => NaN
  | PInf => PInf
  | Fin x => if Rltb x 0 then NaN else Fin (R_sqrt.sqrt x)
  end.

Definition cos (a : float) : float :=
  match a with Fin x => Fin (Rtrigo_def.cos x) | _ => NaN end.

Definition sin (a : float) : float :=
  match a with Fin x => Fin (Rtrigo_def.sin x) | _ => NaN end.

(** The angle of the point [(x, y)] in (-PI, PI], on the reals. *)
Definition Ratan2 (y x : R) : R :=
  if Rltb 0 x then atan (y / x)
  else if Rltb x 0 then
    if Rleb 0 y then atan (y / x) + PI else atan (y / x) - PI
  else if Rltb 0 y then PI / 2
  else if Rltb y 0 then - (PI / 2)
  else 0.

Definition arctan2 (y x : float) : float :=
  match y, x with
  | NaN, _ | _, NaN => NaN
  | PInf, PInf => Fin (PI / 4)
  | PInf, NInf => Fin (3 * PI / 4)
  | NInf, PInf => Fin (- (PI / 4))
  | NInf, NInf => Fin (- (3 * PI / 4))
  | PInf, Fin _ => Fin (PI / 2)
  | NInf, Fin _ => Fin (- (PI / 2))
  | Fin _, PInf => Fin 0
  | Fin b, NInf => if Rltb b 0 then Fin (- PI) else Fin PI
  | Fin b, Fin a => Fin (Ratan2 b a)
  end.

End Numpy.

(** ** Exceptions *)

Inductive exn : Type :=
| KeyError
| IndexError
| ValueError (msg : string).

Definition result (A : Type) : Type := (exn + A)%type.

Definition Ok {A : Type} (a : A) : result A := inr a.
Definition Raise {A : Type} (e : exn) : result A := inl e.

Definition bind {A B : Type} (m : result A) (k : A -> result B) : result B :=
  match m with
  | inl e => inl e
  | inr a => k a
  end.

Notation "x <- m ;; k" := (bind m (fun x => k))
  (at level 61, m at next level, right associativity).

Definition raises {A : Type} (m : result A) (e : exn) : Prop := m = Raise e.

Definition succeeds {A : Type} (m : result A) : Prop := exists a, m = Ok a.

(** ** Python sequences *)

Module Py.

(** [l[k]]: positions [0 .. len-1], and [-len .. -1] counted from the end;
    any other position raises [IndexError]. *)
Definition getitem {A : Type} (l : list A) (k : Z) : result A :=
  let n := Z.of_nat (length l) in
  let p := if (k <? 0)%Z then (n + k)%Z else k in
  if ((0 <=? p)%Z && (p <? n)%Z)%bool then
    match nth_error l (Z.to_nat p) with
    | Some a => Ok a
    | None => Raise IndexError
    end
  else Raise IndexError.

(** [range(lo, hi)] *)
Definition range (lo hi : Z) : list Z :=
  map (fun k => (lo + Z.of_nat k)%Z) (seq 0 (Z.to_nat (hi - lo))).

End Py.

(** ** pandas series and frames *)

Module Pandas.

Definition Timestamp : Type := Z.

Definition Series : Type := list (Timestamp * float).

Definition index (s : Series) : list Timestamp := map fst s.
Definition values (s : Series) : list float := map snd s.

(** A series over the index of [s] holding [vs]. *)
Definition on_index (s : Series) (vs : list float) : Series :=
  combine (index s) vs.

(** [s[k]] for an integer [k] on a date-indexed series. *)
Definition at_pos (s : Series) (k : Z) : result float :=
  Py.getitem (values s) k.

(** [a / b] for two series over the same index. *)
Definition div (a b : Series) : Series :=
  on_index a (map (fun p => fdiv (fst p) (snd p)) (combine (values a) (values b))).

(** [a - c] for a scalar [c]. *)
Definition sub_scalar (a : Series) (c : float) : Series :=
  on_index a (map (fun v => fsub v c) (values a)).

Definition fsum (l : list float) : float := fold_right fadd (Fin 0) l.

(** The mean of one full window: missing as soon as one observation is
    missing (the minimum number of observations is the window length, and
    the rolling aggregations read an infinity as missing).  The mean is the
    exact one; pandas accumulates it in doubles. *)
Definition window_mean (w : nat) (win : list float) : float :=
  if forallb is_finite win then fdiv (fsum win) (Fin (INR w)) else NaN.

Definition rolling_mean_values (w : nat) (vs : list float) : list float :=
  map (fun i =>
         if (i + 1 <? w)%nat then NaN
         else window_mean w (firstn w (skipn (i + 1 - w) vs)))
      (seq 0 (length vs)).

(** [s.rolling(window=w).mean()] *)
Definition rolling_mean (w : nat) (s : Series) : Series :=
  on_index s (rolling_mean_values w (values s)).

Definition diff_values (d : nat) (vs : list float) : list float :=
  map (fun i =>
         if (i <? d)%nat then NaN
         else fsub (nth i vs NaN) (nth (i - d) vs NaN))
      (seq 0 (length vs)).

(** [s.diff(d)] *)
Definition diff (d : nat) (s : Series) : Series :=
  on_index s (diff_values d (values s)).

(** A frame: its columns, in order, under keys of type [K]. *)
Definition Frame (K : Type) : Type := list (K * Series).

Section Columns.
Context {K : Type} (eqb : K -> K -> bool).

Definition columns (df : Frame K) : list K := map fst df.

Fixpoint lookup (k : K) (df : Frame K) : option Series :=
  match df with
  | [] => None
  | (k', s) :: df' => if eqb k k' then Some s else lookup k df'
  end.

(** [df[k]] *)
Definition get (df : Frame K) (k : K) : result Series :=
  match lookup k df with
  | Some s => Ok s
  | None => Raise KeyError
  end.

(** [df[k] = s]: replaces the column when the frame has it, appends it
    otherwise. *)
Fixpoint set (df : Frame K) (k : K) (s : Series) : Frame K :=
  match df with
  | [] => [(k, s)]
  | (k', s') :: df' =>
      if eqb k k' then (k', s) :: df' else (k', s') :: set df' k s
  end.
End Columns.

End Pandas.

(** ** The toolkit *)

Module RrgToolkit.
Import Pandas.

Definition key_eqb (a b : string * string) : bool :=
  (String.eqb (fst a) (fst b) && String.eqb (snd a) (snd b))%bool.

(** The loop of [calculate_rs_ratios] over [prices.columns]. *)
Fixpoint rs_ratios_loop (prices : Frame string) (benchmark_prices : Series)
    (etfs : list string) (rs_ratios : Frame string) : result (Frame string) :=
  match etfs with
  | [] => Ok rs_ratios
  | etf :: rest =>
      column <- get String.eqb prices etf ;;
      let rs_ratio := div column benchmark_prices in
      rs_ratios_loop prices benchmark_prices rest (set String.eqb rs_ratios etf rs_ratio)
  end.

Definition calculate_rs_ratios (prices : Frame string) (benchmark : string)
    : result (Frame string) :=
  benchmark_prices <- get String.eqb prices benchmark ;;
  rs_ratios_loop prices benchmark_prices (columns prices) [].

Definition calc_jdk_rs_ratio (data : Series) : Series :=
  let ma_50 := rolling_mean 50 data in
  let ma_200 := rolling_mean 200 data in
  sub_scalar (div ma_50 ma_200) (Fin 1).

Definition calc_jdk_rs_momentum (jdk_rs_ratio : Series) : Series :=
  diff 20 jdk_rs_ratio.

Definition calculate_jdk_rs (data : Series) : result (Frame string) :=
  if (length data <? 200)%nat then
    Raise (ValueError "Input data must have at least 200 data points")
  else
    let jdk_rs_ratio := calc_jdk_rs_ratio data in
    let jdk_rs_momentum := calc_jdk_rs_momentum jdk_rs_ratio in
    Ok [("JDK RS Ratio"%string, jdk_rs_ratio);
        ("JDK RS Momentum"%string, jdk_rs_momentum)].

Definition categorize_point (x y : float) : string :=
  if (fge x (Fin 0) && fge y (Fin 0))%bool then "Leading"
  else if (flt x (Fin 0) && fge y (Fin 0))%bool then "Improving"
  else if (fge x (Fin 0) && flt y (Fin 0))%bool then "Weakening"
  else "Lagging".

Definition categorize_radius (x y circle_radius : float) : string :=
  let distance := Numpy.sqrt (fadd (fsquare x) (fsquare y)) in
  if fle distance circle_radius then "Weak" else "Strong".

(** The tuple [extrapolate_coordinates] returns, under the names of its
    docstring. *)
Record Extrapolation : Type := mkExtrapolation {
  x_point : float;
  y_point : float;
  projected_x : float;
  projected_y : float;
  moving_towards : string;
  x_historic : float;
  y_historic : float;
  projected_category : string
}.

Definition extrapolate_coordinates (x_series y_series : Series) (j : Z)
    : result Extrapolation :=
  x_point <- at_pos x_series j ;;
  y_point <- at_pos y_series j ;;
  projected_x <- at_pos x_series (j + 1) ;;
  projected_y <- at_pos y_series (j + 1) ;;
  let moving_towards := categorize_point projected_x projected_y in
  x_historic <- at_pos x_series (j - 5) ;;
  y_historic <- at_pos y_series (j - 5) ;;
  let angle_historic_current :=
    Numpy.arctan2 (fsub y_point y_historic) (fsub x_point x_historic) in
  let length_historic_current :=
    Numpy.sqrt (fadd (fsquare (fsub x_point x_historic))
                     (fsquare (fsub y_point y_historic))) in
  let length_historic_projected := length_historic_current in
  let length_current_projected := length_historic_current in
  let projected_x :=
    fadd x_point (fmul length_current_projected (Numpy.cos angle_historic_current)) in
  let projected_y :=
    fadd y_point (fmul length_current_projected (Numpy.sin angle_historic_current)) in
  let x_change := fsub projected_x x_point in
  let y_change := fsub projected_y y_point in
  let projected_category := categorize_point x_change y_change in
  Ok (mkExtrapolation x_point y_point projected_x projected_y moving_towards
        x_historic y_historic projected_category).

(** One row of the coordinates table. *)
Record Row : Type := mkRow {
  ETF : string;
  Date : Timestamp;
  Current_X : float;
  Current_Y : float;
  Current_Category : string;
  Current_Signal_Strength : string;
  Historic_X : float;
  Historic_Y : float;
  Angle_between_Historic_and_Current : float;
  Projected_X : float;
  Projected_Y : float;
  Projected_Category : string;
  Projected_Signal_Strength : string
}.

(** The inner loop of [extract_coordinates], over the positions [js] of one
    instrument; [coordinates] is the table built so far. *)
Fixpoint extract_rows (etf : string) (x_series y_series : Series)
    (dates : list Timestamp) (circle_radius : float) (js : list Z)
    (coordinates : list Row) : result (list Row) :=
  match js with
  | [] => Ok coordinates
  | j :: rest =>
      e <- extrapolate_coordinates x_series y_series j ;;
      let category := categorize_point (x_point e) (y_point e) in
      let signal := categorize_radius (x_point e) (y_point e) circle_radius in
      let historic_x := x_historic e in
      let historic_y := y_historic e in
      date <- Py.getitem dates j ;;
      let row :=
        {| ETF := etf;
           Date := date;
           Current_X := x_point e;
           Current_Y := y_point e;
           Current_Category := category;
           Current_Signal_Strength := signal;
           Historic_X := historic_x;
           Historic_Y := historic_y;
           Angle_between_Historic_and_Current :=
             Numpy.arctan2 (fsub (y_point e) (y_historic e))
                           (fsub (x_point e) (x_historic e));
           Projected_X := projected_x e;
           Projected_Y := projected_y e;
           Projected_Category := moving_towards e;
           Projected_Signal_Strength := signal |} in
      extract_rows etf x_series y_series dates circle_radius rest
        (coordinates ++ [row])
  end.

(** The outer loop of [extract_coordinates], over the instruments. *)
Fixpoint extract_etfs (etf_names : list string)
    (jdk_rs_ratios jdk_rs_momentums : Frame (string * string))
    (trailing_days : Z) (circle_radius : float)
    (coordinates : list Row) : result (list Row) :=
  match etf_names with
  | [] => Ok coordinates
  | etf :: rest =>
      x_series <- get key_eqb jdk_rs_ratios (etf, "RS Ratio"%string) ;;
      y_series <- get key_eqb jdk_rs_momentums (etf, "RS Ratio"%string) ;;
      let dates := index x_series in
      coordinates' <-
        extract_rows etf x_series y_series dates circle_radius
          (Py.range trailing_days (Z.of_nat (length x_series) - 1))
          coordinates ;;
      extract_etfs rest jdk_rs_ratios jdk_rs_momentums trailing_days
        circle_radius coordinates'
  end.

Definition extract_coordinates (etf_names : list string)
    (jdk_rs_ratios jdk_rs_momentums : Frame (string * string))
    (rs_ratios : Frame string) (trailing_days : Z) (circle_radius : float)
    : result (list Row) :=
  extract_etfs etf_names jdk_rs_ratios jdk_rs_momentums trailing_days
    circle_radius [].

End RrgToolkit.

(** ** The projection as the specification words it *)

Module Spec.
Import Pandas.

(** Dead reckoning: the current point moved once more by the displacement
    that led from the historic point (five positions back) to it. *)
Definition dead_reckoning (x_series y_series : Series) (j : Z)
    : result (float * float) :=
  x_current <- at_pos x_series j ;;
  y_current <- at_pos y_series j ;;
  x_historic <- at_pos x_series (j - 5) ;;
  y_historic <- at_pos y_series (j - 5) ;;
  Ok (fadd x_current (fsub x_current x_historic),
      fadd y_current (fsub y_current y_historic)).

End Spec.

(** ** The rows of the coordinates table *)

Module Table.
Import Pandas RrgToolkit.

(** The row that [extract_coordinates] appends for one position: the
    dictionary of its loop body, given the extrapolation and the date. *)
Definition make_row (etf : string) (circle_radius : float)
    (e : Extrapolation) (date : Timestamp) : Row :=
  let signal := categorize_radius (x_point e) (y_point e) circle_radius in
  {| ETF := etf;
     Date := date;
     Current_X := x_point e;
     Current_Y := y_point e;
     Current_Category := categorize_point (x_point e) (y_point e);
     Current_Signal_Strength := signal;
     Historic_X := x_historic e;
     Historic_Y := y_historic e;
     Angle_between_Historic_and_Current :=
       Numpy.arctan2 (fsub (y_point e) (y_historic e))
                     (fsub (x_point e) (x_historic e));
     Projected_X := projected_x e;
     Projected_Y := projected_y e;
     Projected_Category := moving_towards e;
     Projected_Signal_Strength := signal |}.

(** [row] is the row of position [j] of the instrument [etf]. *)
Definition row_at (etf : string) (x_series y_series : Series)
    (circle_radius : float) (j : Z) (row : Row) : Prop :=
  exists e date,
    extrapolate_coordinates x_series y_series j = Ok e /\
    Py.getitem (index x_series) j = Ok date /\
    row = make_row etf circle_radius e date.

(** [block] holds the rows of the instrument [etf], one per position of
    [range(trailing_days, len(x_series) - 1)], in order. *)
Definition block_of (jdk_rs_ratios jdk_rs_momentums : Frame (string * string))
    (trailing_days : Z) (circle_radius : float)
    (etf : string) (block : list Row) : Prop :=
  exists x_series y_series,
    get key_eqb jdk_rs_ratios (etf, "RS Ratio"%string) = Ok x_series /\
    get key_eqb jdk_rs_momentums (etf, "RS Ratio"%string) = Ok y_series /\
    Forall2 (row_at etf x_series y_series circle_radius)
      (Py.range trailing_days (Z.of_nat (length x_series) - 1)) block.


End Table.

(** ** Sample inputs *)

Module Sample.
Import Pandas.

(** The series holding [vs] on the days [0, 1, 2, ...]. *)
Definition daily (vs : list float) : Series :=
  combine (map Z.of_nat (seq 0 (length vs))) vs.

(** Seven days: the path comes from [(3, 0)] on day 0 to [(1, 2)] on day 5
    and is at [(0, 0)] on day 6. *)
Definition week_x : Series :=
  daily [Fin 3; Fin 4; Fin 5; Fin 6; Fin 7; Fin 1; Fin 0].
Definition week_y : Series :=
  daily [Fin 0; Fin 1; Fin 1; Fin 1; Fin 1; Fin 2; Fin 0].

(** Twenty-two days at [(1, 1)], but for day 15 at [(2, 1)]: on day 20 the
    last five-day move points to the left, and the next day is still at
    [(1, 1)]. *)
Definition month_x : Series :=
  daily (repeat (Fin 1) 15 ++ Fin 2 :: repeat (Fin 1) 6).
Definition month_y : Series :=
  daily (repeat (Fin 1) 22).

Definition month_ratios : Frame (string * string) :=
  [(("A", "RS Ratio")%string, month_x)].
Definition month_momentums : Frame (string * string) :=
  [(("A", "RS Ratio")%string, month_y)].

(** Two hundred days of a relative strength of 1. *)
Definition flat_200 : Series := daily (repeat (Fin 1) 200).

(** One day of prices, the benchmark ["B"] at 4. *)
Definition one_day : Frame string :=
  [("A"%string, daily [Fin 2]); ("B"%string, daily [Fin 4])].

(** Three days of prices; the benchmark ["B"] is at 0 on the first day, has
    no price on the second, and is at 4 on the third. *)
Definition three_days : Frame string :=
  [("A"%string, daily [Fin 2; Fin 2; Fin 2]);
   ("B"%string, daily [Fin 0; NaN; Fin 4])].

(** What the extrapolation of that month returns on day 20. *)
Definition month_day_20 : RrgToolkit.Extrapolation :=
  {| RrgToolkit.x_point := Fin 1;
     RrgToolkit.y_point := Fin 1;
     RrgToolkit.projected_x := Fin (1 + (1 - 2));
     RrgToolkit.projected_y := Fin (1 + (1 - 1));
     RrgToolkit.moving_towards := "Leading";
     RrgToolkit.x_historic := Fin 2;
     RrgToolkit.y_historic := Fin 1;
     RrgToolkit.projected_category := "Improving" |}.

End Sample.

(** ** Notions the further properties are stated with *)

Module Derived.
Import Pandas.

(** The real number a finite double stands for. *)
Definition real_of (a : float) : R :=
  match a with Fin x => x | _ => 0 end.

Definition Rsum (l : list R) : R := fold_right Rplus 0 l.

(** The [w] observations that end at position [i]. *)
Definition window (w i : nat) (vs : list float) : list float :=
  firstn w (skipn (i + 1 - w) vs).

(** Their arithmetic mean, on the reals. *)
Definition mean_at (w i : nat) (vs : list float) : R :=
  Rsum (map real_of (window w i vs)) / INR w.

(** The columns of [prices], each divided by [benchmark_prices]. *)
Definition ratio_frame (prices : Frame string) (benchmark_prices : Series)
    : Frame string :=
  map (fun kc => (fst kc, div (snd kc) benchmark_prices)) prices.

(** [a] is a real number other than zero. *)
Definition real_nonzero (a : float) : Prop := exists x, a = Fin x /\ x <> 0.

(** The week of [Sample] as the two frames of one instrument. *)
Definition week_ratios : Frame (string * string) :=
  [(("A", "RS Ratio")%string, Sample.week_x)].
Definition week_momentums : Frame (string * string) :=
  [(("A", "RS Ratio")%string, Sample.week_y)].


(** Seven days of which only the last has coordinates. *)
Definition late_week : Series :=
  Sample.daily [NaN; NaN; NaN; NaN; NaN; NaN; Fin 1].
Definition late_week_frame : Frame (string * string) :=
  [(("A", "RS Ratio")%string, late_week)].

(** Three hundred days of a relative strength of 1, with no value on the
    second day. *)
Definition gap_300 : Series :=
  Sample.daily (Fin 1 :: NaN :: repeat (Fin 1) 298).

End Derived.

(** * Properties *)

(** ** Comparisons on the reals *)

Lemma Rleb_true (a b : R) : Rleb a b = true <-> a <= b.
Proof. unfold Rleb; destruct (Rle_dec a b); split; intros; try easy. Qed.

Lemma Rleb_false (a b : R) : Rleb a b = false <-> b < a.
Proof.
  unfold Rleb; destruct (Rle_dec a b); split; intros; try easy; lra.
Qed.

Lemma Rltb_true (a b : R) : Rltb a b = true <-> a < b.
Proof. unfold Rltb; destruct (Rlt_dec a b); split; intros; try easy. Qed.

Lemma Rltb_false (a b : R) : Rltb a b = false <-> b <= a.
Proof.
  unfold Rltb; destruct (Rlt_dec a b); split; intros; try easy; lra.
Qed.

Lemma Reqb_true (a b : R) : Reqb a b = true <-> a = b.
Proof. unfold Reqb; destruct (Req_dec_T a b); split; intros; try easy. Qed.

Lemma Reqb_false (a b : R) : Reqb a b = false <-> a <> b.
Proof. unfold Reqb; destruct (Req_dec_T a b); split; intros; try easy. Qed.

(** Settles the comparisons of the goal between real numbers that linear
    arithmetic can order. *)
Ltac real_tests :=
  repeat match goal with
    | |- context [Rleb ?a ?b] =>
        first [ replace (Rleb a b) with true
                  by (symmetry; apply Rleb_true; lra)
              | replace (Rleb a b) with false
                  by (symmetry; apply Rleb_false; lra) ]
    | |- context [Rltb ?a ?b] =>
        first [ replace (Rltb a b) with true
                  by (symmetry; apply Rltb_true; lra)
              | replace (Rltb a b) with false
                  by (symmetry; apply Rltb_false; lra) ]
    | |- context [Reqb ?a ?b] =>
        first [ replace (Reqb a b) with true
                  by (symmetry; apply Reqb_true; lra)
              | replace (Reqb a b) with false
                  by (symmetry; apply Reqb_false; lra) ]
    end.

(** ** Polar coordinates *)

Section Polar.
Variables dx dy : R.

Let norm := R_sqrt.sqrt (dx * dx + dy * dy).

Lemma norm_scaled (a : R) :
  0 < a -> dx * dx = a * a ->
  norm = a * R_sqrt.sqrt (1 + (dy / dx)²).
Proof.
  intros Ha Hsq. unfold norm.
  assert (Hdx : dx <> 0) by (intros ->; nra).
  replace (dx * dx + dy * dy) with ((a * a) * (1 + (dy / dx)²)).
  - rewrite sqrt_mult_alt by nra. rewrite sqrt_square by lra. reflexivity.
  - unfold Rsqr. rewrite <- Hsq. field. exact Hdx.
Qed.

Lemma slope_norm_pos : 0 < R_sqrt.sqrt (1 + (dy / dx)²).
Proof. apply sqrt_lt_R0. pose proof (Rle_0_sqr (dy / dx)). lra. Qed.

Lemma Ratan2_cases :
  (0 < dx /\ Numpy.Ratan2 dy dx = atan (dy / dx)) \/
  (dx < 0 /\ Numpy.Ratan2 dy dx = atan (dy / dx) + PI) \/
  (dx < 0 /\ Numpy.Ratan2 dy dx = atan (dy / dx) - PI) \/
  (dx = 0 /\ 0 < dy /\ Numpy.Ratan2 dy dx = PI / 2) \/
  (dx = 0 /\ dy < 0 /\ Numpy.Ratan2 dy dx = - (PI / 2)) \/
  (dx = 0 /\ dy = 0 /\ Numpy.Ratan2 dy dx = 0).
Proof.
  unfold Numpy.Ratan2.
  destruct (Rltb 0 dx) eqn:Hx; [apply Rltb_true in Hx; tauto |].
  apply Rltb_false in Hx.
  destruct (Rltb dx 0) eqn:Hx'; [apply Rltb_true in Hx' |].
  - destruct (Rleb 0 dy); tauto.
  - apply Rltb_false in Hx'. assert (dx = 0) by lra.
    destruct (Rltb 0 dy) eqn:Hy; [apply Rltb_true in Hy; tauto |].
    apply Rltb_false in Hy.
    destruct (Rltb dy 0) eqn:Hy'; [apply Rltb_true in Hy'; tauto |].
    apply Rltb_false in Hy'. assert (dy = 0) by lra. tauto.
Qed.

Lemma polar_cos : norm * Rtrigo_def.cos (Numpy.Ratan2 dy dx) = dx.
Proof.
  pose proof slope_norm_pos as Hs.
  destruct Ratan2_cases
    as [[Hx ->] | [[Hx ->] | [[Hx ->] | [[Hx [Hy ->]] | [[Hx [Hy ->]] | [Hx [Hy ->]]]]]]].
  - rewrite (norm_scaled dx) by (trivial; lra). rewrite cos_atan. field. lra.
  - rewrite (norm_scaled (- dx)) by (lra || ring).
    rewrite neg_cos, cos_atan. field. lra.
  - rewrite (norm_scaled (- dx)) by (lra || ring).
    unfold Rminus. rewrite cos_plus, cos_neg, sin_neg, cos_PI, sin_PI, cos_atan.
    field. lra.
  - rewrite cos_PI2. nra.
  - rewrite cos_neg, cos_PI2. nra.
  - subst norm. rewrite Hx, Hy.
    replace (0 * 0 + 0 * 0) with 0 by ring. rewrite sqrt_0. lra.
Qed.

Lemma polar_sin : norm * Rtrigo_def.sin (Numpy.Ratan2 dy dx) = dy.
Proof.
  pose proof slope_norm_pos as Hs.
  destruct Ratan2_cases
    as [[Hx ->] | [[Hx ->] | [[Hx ->] | [[Hx [Hy ->]] | [[Hx [Hy ->]] | [Hx [Hy ->]]]]]]].
  - rewrite (norm_scaled dx) by (trivial; lra). rewrite sin_atan. field. lra.
  - rewrite (norm_scaled (- dx)) by (lra || ring).
    rewrite neg_sin, sin_atan. field. lra.
  - rewrite (norm_scaled (- dx)) by (lra || ring).
    unfold Rminus. rewrite sin_plus, cos_neg, sin_neg, cos_PI, sin_PI, sin_atan.
    field. lra.
  - subst norm. rewrite Hx, sin_PI2.
    replace (0 * 0 + dy * dy) with (dy * dy) by ring.
    rewrite sqrt_square by lra. ring.
  - subst norm. rewrite Hx, sin_neg, sin_PI2.
    replace (0 * 0 + dy * dy) with ((- dy) * (- dy)) by ring.
    rewrite sqrt_square by lra. ring.
  - subst norm. rewrite Hx, Hy.
    replace (0 * 0 + 0 * 0) with 0 by ring. rewrite sqrt_0. lra.
Qed.
End Polar.

(** ** Categorization of a point *)

Module Categorize.
Import RrgToolkit.

#[local] Open Scope string_scope.

(** On real coordinates the four tests of [categorize_point] are two sign
    tests. *)
Lemma categorize_point_fin (x y : R) :
  categorize_point (Fin x) (Fin y) =
    if Rleb 0 x then (if Rleb 0 y then "Leading" else "Weakening")
    else (if Rleb 0 y then "Improving" else "Lagging").
Proof.
  unfold categorize_point, fge, flt, fle.
  destruct (Rleb 0 x) eqn:Hx, (Rleb 0 y) eqn:Hy; simpl;
    repeat match goal with
      | H : Rleb _ _ = true |- _ => apply Rleb_true in H
      | H : Rleb _ _ = false |- _ => apply Rleb_false in H
      end;
    repeat match goal with
      | |- context [Rltb ?a ?b] =>
          let H := fresh in
          destruct (Rltb a b) eqn:H;
          [apply Rltb_true in H | apply Rltb_false in H]; simpl
      end;
    try reflexivity; lra.
Qed.



(** C10. For all real [x] and [y], [categorize_point] returns ['Leading']
    exactly when [x >= 0] and [y >= 0], ['Improving'] exactly when [x < 0]
    and [y >= 0], ['Weakening'] exactly when [x >= 0] and [y < 0], and
    ['Lagging'] exactly when [x < 0] and [y < 0]. *)
Theorem categorize_point_quadrants (x y : R) :
  (categorize_point (Fin x) (Fin y) = "Leading" <-> 0 <= x /\ 0 <= y) /\
  (categorize_point (Fin x) (Fin y) = "Improving" <-> x < 0 /\ 0 <= y) /\
  (categorize_point (Fin x) (Fin y) = "Weakening" <-> 0 <= x /\ y < 0) /\
  (categorize_point (Fin x) (Fin y) = "Lagging" <-> x < 0 /\ y < 0).
Proof.
  rewrite categorize_point_fin.
  destruct (Rleb 0 x) eqn:Hx, (Rleb 0 y) eqn:Hy;
    repeat match goal with
      | H : Rleb _ _ = true |- _ => apply Rleb_true in H
      | H : Rleb _ _ = false |- _ => apply Rleb_false in H
      end;
    repeat split; intros; try discriminate; try reflexivity; lra.
Qed.


Lemma categorize_radius_fin (x y r : R) :
  categorize_radius (Fin x) (Fin y) (Fin r) =
    if Rleb (R_sqrt.sqrt (x * x + y * y)) r then "Weak" else "Strong".
Proof.
  unfold categorize_radius, fsquare. simpl.
  destruct (Rltb (x * x + y * y) 0) eqn:H.
  - apply Rltb_true in H. nra.
  - reflexivity.
Qed.




End Categorize.

(** ** Subscripts *)

Module Subscript.

Lemma getitem_front {A : Type} (l : list A) (k : Z) (d : A) :
  (0 <= k < Z.of_nat (length l))%Z ->
  Py.getitem l k = Ok (nth (Z.to_nat k) l d).
Proof.
  intros Hk. unfold Py.getitem.
  destruct (k <? 0)%Z eqn:Hneg; [apply Z.ltb_lt in Hneg; lia |].
  replace ((0 <=? k)%Z && (k <? Z.of_nat (length l))%Z)%bool with true
    by (symmetry; apply andb_true_iff; split;
        [apply Z.leb_le | apply Z.ltb_lt]; lia).
  destruct (nth_error l (Z.to_nat k)) as [a |] eqn:Hn.
  - rewrite (nth_error_nth _ _ d Hn). reflexivity.
  - apply nth_error_None in Hn. lia.
Qed.

Lemma getitem_back {A : Type} (l : list A) (k : Z) (d : A) :
  (- Z.of_nat (length l) <= k < 0)%Z ->
  Py.getitem l k = Ok (nth (Z.to_nat (Z.of_nat (length l) + k)) l d).
Proof.
  intros Hk. unfold Py.getitem.
  destruct (k <? 0)%Z eqn:Hneg; [| apply Z.ltb_ge in Hneg; lia].
  replace ((0 <=? Z.of_nat (length l) + k)%Z &&
           (Z.of_nat (length l) + k <? Z.of_nat (length l))%Z)%bool with true
    by (symmetry; apply andb_true_iff; split;
        [apply Z.leb_le | apply Z.ltb_lt]; lia).
  destruct (nth_error l _) as [a |] eqn:Hn.
  - rewrite (nth_error_nth _ _ d Hn). reflexivity.
  - apply nth_error_None in Hn. lia.
Qed.

Lemma getitem_outside {A : Type} (l : list A) (k : Z) :
  (k < - Z.of_nat (length l) \/ Z.of_nat (length l) <= k)%Z ->
  Py.getitem l k = Raise IndexError.
Proof.
  intros Hk. unfold Py.getitem.
  destruct (k <? 0)%Z eqn:Hneg;
    [apply Z.ltb_lt in Hneg | apply Z.ltb_ge in Hneg].
  - replace (0 <=? Z.of_nat (length l) + k)%Z with false
      by (symmetry; apply Z.leb_gt; lia).
    reflexivity.
  - replace (k <? Z.of_nat (length l))%Z with false
      by (symmetry; apply Z.ltb_ge; lia).
    rewrite andb_false_r. reflexivity.
Qed.

(** A subscript either succeeds or raises [IndexError], and which of the
    two is decided by the position alone. *)
Lemma getitem_cases {A : Type} (l : list A) (k : Z) :
  ((- Z.of_nat (length l) <= k < Z.of_nat (length l))%Z /\
     exists a, Py.getitem l k = Ok a) \/
  ((k < - Z.of_nat (length l) \/ Z.of_nat (length l) <= k)%Z /\
     Py.getitem l k = Raise IndexError).
Proof.
  destruct (Z_lt_le_dec k (- Z.of_nat (length l))) as [H1 | H1];
    [right; split; [lia | apply getitem_outside; lia] |].
  destruct (Z_lt_le_dec k (Z.of_nat (length l))) as [H2 | H2];
    [| right; split; [lia | apply getitem_outside; lia]].
  left. split; [lia |].
  destruct l as [| d l']; [simpl in *; lia |].
  destruct (Z_lt_le_dec k 0).
  - eexists. apply (getitem_back _ _ d). lia.
  - eexists. apply (getitem_front _ _ d). lia.
Qed.

Lemma getitem_succeeds_iff {A : Type} (l : list A) (k : Z) :
  succeeds (Py.getitem l k) <->
  (- Z.of_nat (length l) <= k < Z.of_nat (length l))%Z.
Proof.
  unfold succeeds.
  destruct (getitem_cases l k) as [[Hk [a Ha]] | [Hk He]].
  - split; [intros _; exact Hk | intros _; exists a; exact Ha].
  - rewrite He. split; [intros [a Ha]; discriminate | lia].
Qed.

Lemma values_length (s : Pandas.Series) :
  length (Pandas.values s) = length s.
Proof. apply length_map. Qed.

Lemma index_length (s : Pandas.Series) :
  length (Pandas.index s) = length s.
Proof. apply length_map. Qed.

Lemma at_pos_succeeds_iff (s : Pandas.Series) (k : Z) :
  succeeds (Pandas.at_pos s k) <->
  (- Z.of_nat (length s) <= k < Z.of_nat (length s))%Z.
Proof.
  unfold Pandas.at_pos. rewrite getitem_succeeds_iff, values_length. tauto.
Qed.

Lemma at_pos_cases (s : Pandas.Series) (k : Z) :
  succeeds (Pandas.at_pos s k) \/ Pandas.at_pos s k = Raise IndexError.
Proof.
  unfold Pandas.at_pos, succeeds.
  destruct (getitem_cases (Pandas.values s) k) as [[_ H] | [_ H]]; tauto.
Qed.

End Subscript.

(** ** Extrapolation *)

Module Extrapolate.
Import Pandas RrgToolkit Subscript.

Lemma sqrt_sum_squares (a b : R) :
  Numpy.sqrt (Fin (a * a + b * b)) = Fin (R_sqrt.sqrt (a * a + b * b)).
Proof.
  simpl. destruct (Rltb (a * a + b * b) 0) eqn:H; [| reflexivity].
  apply Rltb_true in H. nra.
Qed.

(** The arithmetic of the projection on real coordinates: the step of
    length [sqrt (dx² + dy²)] along the bearing [arctan2 dy dx] is the
    displacement [(dx, dy)] itself. *)
Lemma polar_step_x (x xh y yh : R) :
  fadd (Fin x)
    (fmul (Numpy.sqrt (fadd (fsquare (fsub (Fin x) (Fin xh)))
                            (fsquare (fsub (Fin y) (Fin yh)))))
          (Numpy.cos (Numpy.arctan2 (fsub (Fin y) (Fin yh))
                                    (fsub (Fin x) (Fin xh)))))
  = Fin (x + (x - xh)).
Proof.
  unfold fsquare, fsub. cbn [fneg fadd fmul].
  rewrite sqrt_sum_squares. simpl. f_equal. f_equal. apply polar_cos.
Qed.

Lemma polar_step_y (x xh y yh : R) :
  fadd (Fin y)
    (fmul (Numpy.sqrt (fadd (fsquare (fsub (Fin x) (Fin xh)))
                            (fsquare (fsub (Fin y) (Fin yh)))))
          (Numpy.sin (Numpy.arctan2 (fsub (Fin y) (Fin yh))
                                    (fsub (Fin x) (Fin xh)))))
  = Fin (y + (y - yh)).
Proof.
  unfold fsquare, fsub. cbn [fneg fadd fmul].
  rewrite sqrt_sum_squares. simpl. f_equal. f_equal. apply polar_sin.
Qed.

(** What [extrapolate_coordinates] returns when the current and the
    historic point are real. *)
Lemma extrapolate_fin (x_series y_series : Series) (j : Z)
    (x y xh yh : R) (xn yn : float) :
  at_pos x_series j = Ok (Fin x) ->
  at_pos y_series j = Ok (Fin y) ->
  at_pos x_series (j + 1) = Ok xn ->
  at_pos y_series (j + 1) = Ok yn ->
  at_pos x_series (j - 5) = Ok (Fin xh) ->
  at_pos y_series (j - 5) = Ok (Fin yh) ->
  extrapolate_coordinates x_series y_series j =
    Ok {| x_point := Fin x;
          y_point := Fin y;
          projected_x := Fin (x + (x - xh));
          projected_y := Fin (y + (y - yh));
          moving_towards := categorize_point xn yn;
          x_historic := Fin xh;
          y_historic := Fin yh;
          projected_category := categorize_point (Fin (x - xh)) (Fin (y - yh)) |}.
Proof.
  intros Hx Hy Hxn Hyn Hxh Hyh. unfold extrapolate_coordinates.
  rewrite Hx, Hy, Hxn, Hyn, Hxh, Hyh. cbn [bind Ok].
  rewrite polar_step_x, polar_step_y.
  unfold Ok. do 3 f_equal.
  all: unfold fsub; simpl; apply f_equal; lra.
Qed.

(** The six subscripts of [extrapolate_coordinates] decide its outcome. *)
Lemma extrapolate_succeeds_iff (x_series y_series : Series) (j : Z) :
  succeeds (extrapolate_coordinates x_series y_series j) <->
  succeeds (at_pos x_series j) /\ succeeds (at_pos y_series j) /\
  succeeds (at_pos x_series (j + 1)) /\ succeeds (at_pos y_series (j + 1)) /\
  succeeds (at_pos x_series (j - 5)) /\ succeeds (at_pos y_series (j - 5)).
Proof.
  unfold succeeds, extrapolate_coordinates. split.
  - intros [e He].
    destruct (at_pos x_series j); [discriminate |].
    destruct (at_pos y_series j); [discriminate |].
    destruct (at_pos x_series (j + 1)); [discriminate |].
    destruct (at_pos y_series (j + 1)); [discriminate |].
    destruct (at_pos x_series (j - 5)); [discriminate |].
    destruct (at_pos y_series (j - 5)); [discriminate |].
    repeat split; eexists; reflexivity.
  - intros [[a1 ->] [[a2 ->] [[a3 ->] [[a4 ->] [[a5 ->] [a6 ->]]]]]].
    eexists. reflexivity.
Qed.

Lemma extrapolate_cases (x_series y_series : Series) (j : Z) :
  succeeds (extrapolate_coordinates x_series y_series j) \/
  extrapolate_coordinates x_series y_series j = Raise IndexError.
Proof.
  unfold extrapolate_coordinates.
  destruct (at_pos_cases x_series j) as [[a1 ->] | ->]; [| right; reflexivity].
  destruct (at_pos_cases y_series j) as [[a2 ->] | ->]; [| right; reflexivity].
  destruct (at_pos_cases x_series (j + 1)) as [[a3 ->] | ->]; [| right; reflexivity].
  destruct (at_pos_cases y_series (j + 1)) as [[a4 ->] | ->]; [| right; reflexivity].
  destruct (at_pos_cases x_series (j - 5)) as [[a5 ->] | ->]; [| right; reflexivity].
  destruct (at_pos_cases y_series (j - 5)) as [[a6 ->] | ->]; [| right; reflexivity].
  left. eexists. reflexivity.
Qed.

(** On two series of one length the positions that succeed form the
    window [5 - length, length - 2]. *)
Lemma extrapolate_window (x_series y_series : Series) (j : Z) :
  length x_series = length y_series ->
  (succeeds (extrapolate_coordinates x_series y_series j) <->
   (- Z.of_nat (length x_series) <= j - 5 /\
    j + 1 < Z.of_nat (length x_series))%Z).
Proof.
  intros Hlen. rewrite extrapolate_succeeds_iff, !at_pos_succeeds_iff.
  rewrite <- Hlen. lia.
Qed.

(** C3. For every valid index [j] (at least five prior points and one next
    point), where the current point [(x, y)] and the historic point
    [(xh, yh)] are real, the point that [extrapolate_coordinates] projects
    through the bearing angle and the Euclidean length is the dead-reckoning
    point: current + (current - historic), that is [(2x - xh, 2y - yh)]. *)
Theorem projection_is_dead_reckoning (x_series y_series : Series) (j : Z)
    (x y xh yh : R) :
  (5 <= j)%Z ->
  (j + 1 < Z.of_nat (length x_series))%Z ->
  (j + 1 < Z.of_nat (length y_series))%Z ->
  at_pos x_series j = Ok (Fin x) ->
  at_pos y_series j = Ok (Fin y) ->
  at_pos x_series (j - 5) = Ok (Fin xh) ->
  at_pos y_series (j - 5) = Ok (Fin yh) ->
  exists e,
    extrapolate_coordinates x_series y_series j = Ok e /\
    projected_x e = Fin (2 * x - xh) /\
    projected_y e = Fin (2 * y - yh) /\
    Spec.dead_reckoning x_series y_series j = Ok (projected_x e, projected_y e).
Proof.
  intros Hj Hnx Hny Hx Hy Hxh Hyh.
  destruct (proj2 (at_pos_succeeds_iff x_series (j + 1))) as [xn Hxn]; [lia |].
  destruct (proj2 (at_pos_succeeds_iff y_series (j + 1))) as [yn Hyn]; [lia |].
  eexists. split; [apply (extrapolate_fin _ _ _ _ _ _ _ _ _ Hx Hy Hxn Hyn Hxh Hyh) |].
  cbn [projected_x projected_y]. repeat split.
  - apply f_equal. lra.
  - apply f_equal. lra.
  - unfold Spec.dead_reckoning. rewrite Hx, Hy, Hxh, Hyh. reflexivity.
Qed.

Lemma projection_is_dead_reckoning_witness :
  exists e,
    extrapolate_coordinates Sample.week_x Sample.week_y 5 = Ok e /\
    projected_x e = Fin (2 * 1 - 3) /\
    projected_y e = Fin (2 * 2 - 0) /\
    Spec.dead_reckoning Sample.week_x Sample.week_y 5
      = Ok (projected_x e, projected_y e).
Proof.
  apply (projection_is_dead_reckoning Sample.week_x Sample.week_y 5 1 2 3 0);
    (reflexivity || (simpl; lia)).
Defined.

(** C8, as the code has it: on two series of one length,
    [extrapolate_coordinates] raises the index error exactly when
    [j - 5 < - length] or [j + 1 >= length], and returns for every other
    [j]: a position [j - 5] in [- length, -1] is read from the end of the
    series.  In particular no [j] in [5, length - 2] raises. *)
Theorem extrapolate_index_error (x_series y_series : Series) (j : Z) :
  length x_series = length y_series ->
  (raises (extrapolate_coordinates x_series y_series j) IndexError <->
     (j - 5 < - Z.of_nat (length x_series) \/
      j + 1 >= Z.of_nat (length x_series))%Z) /\
  (succeeds (extrapolate_coordinates x_series y_series j) <->
     (- Z.of_nat (length x_series) <= j - 5 /\
      j + 1 < Z.of_nat (length x_series))%Z) /\
  ((5 <= j /\ j + 1 < Z.of_nat (length x_series))%Z ->
     succeeds (extrapolate_coordinates x_series y_series j)).
Proof.
  intros Hlen. pose proof (extrapolate_window x_series y_series j Hlen) as Hw.
  split; [| split; [exact Hw | intros H; apply Hw; lia]].
  unfold raises.
  destruct (extrapolate_cases x_series y_series j) as [Hs | He].
  - split.
    + intros He. destruct Hs as [e Hs]. rewrite Hs in He. discriminate.
    + intros H. apply Hw in Hs. lia.
  - split; [| intros _; exact He].
    intros _.
    destruct (Z_lt_le_dec (j - 5) (- Z.of_nat (length x_series))); [lia |].
    destruct (Z_lt_le_dec (j + 1) (Z.of_nat (length x_series))); [| lia].
    assert (Hs : succeeds (extrapolate_coordinates x_series y_series j))
      by (apply Hw; lia).
    destruct Hs as [e Hs]. rewrite Hs in He. discriminate.
Qed.

Lemma extrapolate_index_error_witness :
  succeeds (extrapolate_coordinates Sample.week_x Sample.week_y 5) /\
  raises (extrapolate_coordinates Sample.week_x Sample.week_y 6) IndexError.
Proof.
  pose proof (extrapolate_index_error Sample.week_x Sample.week_y 5 eq_refl)
    as [_ [_ H5]].
  pose proof (extrapolate_index_error Sample.week_x Sample.week_y 6 eq_refl)
    as [H6 _].
  split; [apply H5 | apply H6]; simpl; lia.
Defined.

(** C8, as stated, fails below position 5: with [j = 0] on seven days the
    historic point is read at position [-5], that is on day 2, and nothing
    is raised. *)
Lemma extrapolate_wraps_below_five :
  (0 - 5 < 0)%Z /\
  succeeds (extrapolate_coordinates Sample.week_x Sample.week_y 0) /\
  at_pos Sample.week_x (0 - 5) = Ok (Fin 5) /\
  at_pos Sample.week_y (0 - 5) = Ok (Fin 1).
Proof.
  split; [lia |]. split; [| split; reflexivity].
  apply extrapolate_succeeds_iff.
  repeat split; eexists; reflexivity.
Qed.

End Extrapolate.

(** ** The coordinates table *)

Module Coordinates.
Import Pandas RrgToolkit Table Subscript Extrapolate.

(** The inner loop appends, in order, the row of each position; it returns
    exactly when every position has one. *)
Lemma extract_rows_spec (etf : string) (x_series y_series : Series)
    (circle_radius : float) (js : list Z) :
  forall coordinates rows,
    extract_rows etf x_series y_series (index x_series) circle_radius js
      coordinates = Ok rows <->
    exists block,
      Forall2 (row_at etf x_series y_series circle_radius) js block /\
      rows = coordinates ++ block.
Proof.
  induction js as [| j js IH]; intros coordinates rows; simpl.
  - split.
    + intros H. injection H as <-. exists []. split; [constructor |].
      symmetry; apply app_nil_r.
    + intros [block [HF ->]]. inversion HF. rewrite app_nil_r. reflexivity.
  - split.
    + intros H.
      destruct (extrapolate_coordinates x_series y_series j) as [err | e] eqn:He;
        [discriminate |].
      destruct (Py.getitem (index x_series) j) as [err | date] eqn:Hd;
        [discriminate |].
      cbn [bind Ok] in H. apply IH in H. destruct H as [block [HF ->]].
      exists (make_row etf circle_radius e date :: block). split.
      * constructor; [| exact HF]. exists e, date. auto.
      * rewrite <- app_assoc. reflexivity.
    + intros [block [HF ->]]. inversion HF as [| j' row js' block' Hrow HF' ]; subst.
      destruct Hrow as [e [date [He [Hd ->]]]].
      rewrite He, Hd. cbn [bind Ok]. apply IH.
      exists block'. split; [exact HF' |].
      rewrite <- app_assoc. reflexivity.
Qed.

(** The outer loop appends, in order, the block of each instrument. *)
Lemma extract_etfs_spec (jdk_rs_ratios jdk_rs_momentums : Frame (string * string))
    (trailing_days : Z) (circle_radius : float) (etf_names : list string) :
  forall coordinates rows,
    extract_etfs etf_names jdk_rs_ratios jdk_rs_momentums trailing_days
      circle_radius coordinates = Ok rows <->
    exists blocks,
      Forall2 (block_of jdk_rs_ratios jdk_rs_momentums trailing_days circle_radius)
        etf_names blocks /\
      rows = coordinates ++ concat blocks.
Proof.
  induction etf_names as [| etf names IH]; intros coordinates rows; simpl.
  - split.
    + intros H. injection H as <-. exists []. split; [constructor |].
      symmetry; apply app_nil_r.
    + intros [blocks [HF ->]]. inversion HF. simpl. rewrite app_nil_r.
      reflexivity.
  - split.
    + intros H.
      destruct (get key_eqb jdk_rs_ratios _) as [err | x_series] eqn:Hx;
        [discriminate |].
      destruct (get key_eqb jdk_rs_momentums _) as [err | y_series] eqn:Hy;
        [discriminate |].
      cbn [bind Ok] in H.
      destruct (extract_rows etf x_series y_series _ _ _ _) as [err | mid] eqn:Hrows;
        [discriminate |].
      cbn [bind Ok] in H. apply extract_rows_spec in Hrows.
      destruct Hrows as [block [HB ->]].
      apply IH in H. destruct H as [blocks [HF ->]].
      exists (block :: blocks). split.
      * constructor; [| exact HF]. exists x_series, y_series. auto.
      * simpl. rewrite <- app_assoc. reflexivity.
    + intros [blocks [HF ->]].
      inversion HF as [| etf' block names' blocks' Hblock HF']; subst.
      destruct Hblock as [x_series [y_series [Hx [Hy HB]]]].
      rewrite Hx, Hy. cbn [bind Ok].
      assert (Hrows :
        extract_rows etf x_series y_series (index x_series) circle_radius
          (Py.range trailing_days (Z.of_nat (length x_series) - 1)) coordinates
        = Ok (coordinates ++ block))
        by (apply extract_rows_spec; exists block; auto).
      rewrite Hrows. cbn [bind Ok]. apply IH.
      exists blocks'. split; [exact HF' |].
      simpl. rewrite <- app_assoc. reflexivity.
Qed.

Lemma extract_coordinates_spec (etf_names : list string)
    (jdk_rs_ratios jdk_rs_momentums : Frame (string * string))
    (rs_ratios : Frame string) (trailing_days : Z) (circle_radius : float)
    (rows : list Row) :
  extract_coordinates etf_names jdk_rs_ratios jdk_rs_momentums rs_ratios
    trailing_days circle_radius = Ok rows <->
  exists blocks,
    Forall2 (block_of jdk_rs_ratios jdk_rs_momentums trailing_days circle_radius)
      etf_names blocks /\
    rows = concat blocks.
Proof. unfold extract_coordinates. apply extract_etfs_spec. Qed.

Lemma row_at_make (etf : string) (x_series y_series : Series)
    (circle_radius : float) (j : Z) (row : Row) :
  row_at etf x_series y_series circle_radius j row ->
  exists e date, row = make_row etf circle_radius e date.
Proof. intros [e [date [_ [_ ->]]]]. exists e, date. reflexivity. Qed.

(** Every row of a block has the shape [make_row] gives it, under the name
    of the block's instrument. *)
Lemma block_rows (jdk_rs_ratios jdk_rs_momentums : Frame (string * string))
    (trailing_days : Z) (circle_radius : float) (etf : string)
    (block : list Row) :
  block_of jdk_rs_ratios jdk_rs_momentums trailing_days circle_radius etf block ->
  Forall (fun row => exists e date, row = make_row etf circle_radius e date) block.
Proof.
  intros [x_series [y_series [_ [_ HF]]]].
  induction HF as [| j row js block Hrow _ IH]; constructor.
  - exact (row_at_make _ _ _ _ _ _ Hrow).
  - exact IH.
Qed.

Lemma table_rows (jdk_rs_ratios jdk_rs_momentums : Frame (string * string))
    (trailing_days : Z) (circle_radius : float) (etf_names : list string)
    (blocks : list (list Row)) :
  Forall2 (block_of jdk_rs_ratios jdk_rs_momentums trailing_days circle_radius)
    etf_names blocks ->
  Forall (fun row => exists etf e date, row = make_row etf circle_radius e date)
    (concat blocks).
Proof.
  intros HF. induction HF as [| etf block names blocks Hblock _ IH]; simpl.
  - constructor.
  - apply Forall_app. split; [| exact IH].
    apply block_rows in Hblock.
    eapply Forall_impl; [| exact Hblock].
    intros row [e [date ->]]. exists etf, e, date. reflexivity.
Qed.

(** The 'Projected Category' of a row is the quadrant of the point that
    follows its position in the two series. *)
Lemma row_projected_category (etf : string) (x_series y_series : Series)
    (circle_radius : float) (j : Z) (row : Row) :
  row_at etf x_series y_series circle_radius j row ->
  exists x_next y_next,
    at_pos x_series (j + 1) = Ok x_next /\
    at_pos y_series (j + 1) = Ok y_next /\
    Projected_Category row = categorize_point x_next y_next.
Proof.
  intros [e [date [He [_ ->]]]]. unfold extrapolate_coordinates in He.
  destruct (at_pos x_series j); [discriminate |].
  destruct (at_pos y_series j); [discriminate |].
  destruct (at_pos x_series (j + 1)) as [| x_next]; [discriminate |].
  destruct (at_pos y_series (j + 1)) as [| y_next]; [discriminate |].
  destruct (at_pos x_series (j - 5)); [discriminate |].
  destruct (at_pos y_series (j - 5)); [discriminate |].
  injection He as <-. exists x_next, y_next. repeat split.
Qed.

(** *** The positions of the loop *)


Lemma range_In (lo hi j : Z) : In j (Py.range lo hi) <-> (lo <= j < hi)%Z.
Proof.
  unfold Py.range. rewrite in_map_iff. split.
  - intros [k [<- Hk]]. apply in_seq in Hk. lia.
  - intros Hj. exists (Z.to_nat (j - lo)). split; [lia |].
    apply in_seq. lia.
Qed.

Lemma rows_exist (etf : string) (x_series y_series : Series)
    (circle_radius : float) (js : list Z) :
  (forall j, In j js -> exists row, row_at etf x_series y_series circle_radius j row) ->
  exists block, Forall2 (row_at etf x_series y_series circle_radius) js block.
Proof.
  induction js as [| j js IH]; intros H.
  - exists []. constructor.
  - destruct (H j (or_introl eq_refl)) as [row Hrow].
    destruct IH as [block HF]; [intros k Hk; apply H; right; exact Hk |].
    exists (row :: block). constructor; assumption.
Qed.


(** *** One month, run through the table *)

Lemma month_extrapolation :
  extrapolate_coordinates Sample.month_x Sample.month_y 20 = Ok Sample.month_day_20.
Proof.
  rewrite (extrapolate_fin Sample.month_x Sample.month_y 20 1 1 2 1 (Fin 1) (Fin 1))
    by reflexivity.
  rewrite !Categorize.categorize_point_fin. real_tests. reflexivity.
Qed.

Lemma month_table :
  extract_coordinates ["A"%string] Sample.month_ratios Sample.month_momentums []
    20 (Fin (1 / 10))
  = Ok [make_row "A" (Fin (1 / 10)) Sample.month_day_20 20%Z].
Proof.
  apply extract_coordinates_spec.
  exists [[make_row "A" (Fin (1 / 10)) Sample.month_day_20 20%Z]].
  split; [| reflexivity].
  constructor; [| constructor].
  exists Sample.month_x, Sample.month_y.
  split; [reflexivity |]. split; [reflexivity |].
  change (Py.range 20 (Z.of_nat (length Sample.month_x) - 1)) with [20%Z].
  constructor; [| constructor].
  exists Sample.month_day_20, 20%Z.
  split; [exact month_extrapolation |]. split; reflexivity.
Qed.

(** C1, on the code: for the month of [Sample] the displacement of the
    projected point from the current point is classified ['Improving'],
    and the row of day 20 carries ['Leading'] as its 'Projected Category',
    the quadrant of the next day's actual point. *)
Theorem projected_category_is_next_point_quadrant :
  exists e row,
    extrapolate_coordinates Sample.month_x Sample.month_y 20 = Ok e /\
    extract_coordinates ["A"%string] Sample.month_ratios Sample.month_momentums []
      20 (Fin (1 / 10)) = Ok [row] /\
    categorize_point (fsub (projected_x e) (x_point e))
                     (fsub (projected_y e) (y_point e)) = "Improving"%string /\
    projected_category e = "Improving"%string /\
    Projected_Category row = "Leading"%string /\
    Projected_Category row = moving_towards e.
Proof.
  exists Sample.month_day_20, (make_row "A" (Fin (1 / 10)) Sample.month_day_20 20%Z).
  split; [exact month_extrapolation |]. split; [exact month_table |].
  split; [| repeat split].
  cbn [Sample.month_day_20 projected_x projected_y x_point y_point fsub fneg fadd].
  rewrite Categorize.categorize_point_fin. real_tests. reflexivity.
Qed.

(** C9. In every record produced by [extract_coordinates] the 'Projected
    Signal Strength' is the 'Current Signal Strength', which is the signal
    strength of the current point: nothing is computed at the projected
    coordinates. *)
Theorem projected_signal_is_current_signal (etf_names : list string)
    (jdk_rs_ratios jdk_rs_momentums : Frame (string * string))
    (rs_ratios : Frame string) (trailing_days : Z) (circle_radius : float)
    (rows : list Row) :
  extract_coordinates etf_names jdk_rs_ratios jdk_rs_momentums rs_ratios
    trailing_days circle_radius = Ok rows ->
  Forall (fun row =>
            Projected_Signal_Strength row = Current_Signal_Strength row /\
            Current_Signal_Strength row =
              categorize_radius (Current_X row) (Current_Y row) circle_radius)
         rows.
Proof.
  intros H. apply extract_coordinates_spec in H. destruct H as [blocks [HF ->]].
  eapply Forall_impl; [| exact (table_rows _ _ _ _ _ _ HF)].
  intros row [etf [e [date ->]]]. split; reflexivity.
Qed.

Lemma projected_signal_is_current_signal_witness :
  exists row,
    extract_coordinates ["A"%string] Sample.month_ratios Sample.month_momentums []
      20 (Fin (1 / 10)) = Ok [row] /\
    Forall (fun row =>
              Projected_Signal_Strength row = Current_Signal_Strength row /\
              Current_Signal_Strength row =
                categorize_radius (Current_X row) (Current_Y row) (Fin (1 / 10)))
           [row].
Proof.
  eexists. split; [exact month_table |].
  exact (projected_signal_is_current_signal _ _ _ _ _ _ _ month_table).
Defined.

(** *** Counting the rows *)








End Coordinates.

(** ** Series arithmetic *)

Module SeriesFacts.
Import Pandas Subscript.

Lemma map_fst_combine {A B : Type} (l : list A) (l' : list B) :
  length l = length l' -> map fst (combine l l') = l.
Proof.
  revert l'. induction l as [| a l IH]; intros [| b l'] H; simpl in *;
    try discriminate; [reflexivity |].
  f_equal. apply IH. lia.
Qed.

Lemma map_snd_combine {A B : Type} (l : list A) (l' : list B) :
  length l = length l' -> map snd (combine l l') = l'.
Proof.
  revert l'. induction l as [| a l IH]; intros [| b l'] H; simpl in *;
    try discriminate; [reflexivity |].
  f_equal. apply IH. lia.
Qed.

Lemma on_index_values (s : Series) (vs : list float) :
  length vs = length s -> values (on_index s vs) = vs.
Proof.
  intros H. unfold on_index, values. apply map_snd_combine.
  rewrite index_length. symmetry. exact H.
Qed.

Lemma on_index_index (s : Series) (vs : list float) :
  length vs = length s -> index (on_index s vs) = index s.
Proof.
  intros H. unfold on_index. unfold index at 1. apply map_fst_combine.
  rewrite index_length. symmetry. exact H.
Qed.

Lemma on_index_length (s : Series) (vs : list float) :
  length vs = length s -> length (on_index s vs) = length s.
Proof.
  intros H. unfold on_index. rewrite length_combine, index_length. lia.
Qed.

Lemma nth_map_seq {A : Type} (f : nat -> A) (n i : nat) (d : A) :
  (i < n)%nat -> nth i (map f (seq 0 n)) d = f i.
Proof.
  intros H. rewrite (nth_indep _ d (f 0%nat)) by (rewrite length_map, length_seq; exact H).
  rewrite (map_nth f (seq 0 n) 0%nat i), seq_nth by exact H. reflexivity.
Qed.

Lemma rolling_mean_values_length (w : nat) (vs : list float) :
  length (rolling_mean_values w vs) = length vs.
Proof. unfold rolling_mean_values. rewrite length_map, length_seq. reflexivity. Qed.

Lemma diff_values_length (d : nat) (vs : list float) :
  length (diff_values d vs) = length vs.
Proof. unfold diff_values. rewrite length_map, length_seq. reflexivity. Qed.

Lemma rolling_mean_spec (w : nat) (s : Series) :
  values (rolling_mean w s) = rolling_mean_values w (values s) /\
  index (rolling_mean w s) = index s /\
  length (rolling_mean w s) = length s.
Proof.
  assert (H : length (rolling_mean_values w (values s)) = length s)
    by (rewrite rolling_mean_values_length; apply values_length).
  unfold rolling_mean.
  split; [apply on_index_values | split; [apply on_index_index | apply on_index_length]];
    exact H.
Qed.

Lemma diff_spec (d : nat) (s : Series) :
  values (diff d s) = diff_values d (values s) /\
  index (diff d s) = index s /\
  length (diff d s) = length s.
Proof.
  assert (H : length (diff_values d (values s)) = length s)
    by (rewrite diff_values_length; apply values_length).
  unfold diff.
  split; [apply on_index_values | split; [apply on_index_index | apply on_index_length]];
    exact H.
Qed.

Lemma sub_scalar_spec (a : Series) (c : float) :
  values (sub_scalar a c) = map (fun v => fsub v c) (values a) /\
  index (sub_scalar a c) = index a /\
  length (sub_scalar a c) = length a.
Proof.
  assert (H : length (map (fun v => fsub v c) (values a)) = length a)
    by (rewrite length_map; apply values_length).
  unfold sub_scalar.
  split; [apply on_index_values | split; [apply on_index_index | apply on_index_length]];
    exact H.
Qed.

Lemma div_spec (a b : Series) :
  length a = length b ->
  values (div a b) =
    map (fun p => fdiv (fst p) (snd p)) (combine (values a) (values b)) /\
  index (div a b) = index a /\
  length (div a b) = length a.
Proof.
  intros Hlen.
  assert (H : length (map (fun p => fdiv (fst p) (snd p))
                        (combine (values a) (values b))) = length a)
    by (rewrite length_map, length_combine, !values_length; lia).
  unfold div.
  split; [apply on_index_values | split; [apply on_index_index | apply on_index_length]];
    exact H.
Qed.

Lemma nth_rolling_mean_values (w : nat) (vs : list float) (i : nat) :
  (i < length vs)%nat ->
  nth i (rolling_mean_values w vs) NaN =
    if (i + 1 <? w)%nat then NaN
    else window_mean w (firstn w (skipn (i + 1 - w) vs)).
Proof. intros H. unfold rolling_mean_values. apply nth_map_seq. exact H. Qed.

Lemma nth_diff_values (d : nat) (vs : list float) (i : nat) :
  (i < length vs)%nat ->
  nth i (diff_values d vs) NaN =
    if (i <? d)%nat then NaN else fsub (nth i vs NaN) (nth (i - d) vs NaN).
Proof. intros H. unfold diff_values. apply nth_map_seq. exact H. Qed.

Lemma nth_div_values (l l' : list float) (i : nat) :
  length l = length l' -> (i < length l)%nat ->
  nth i (map (fun p => fdiv (fst p) (snd p)) (combine l l')) NaN =
    fdiv (nth i l NaN) (nth i l' NaN).
Proof.
  intros Hlen Hi.
  rewrite (nth_indep _ NaN (fdiv (fst (NaN, NaN)) (snd (NaN, NaN))))
    by (rewrite length_map, length_combine; lia).
  rewrite (map_nth (fun p => fdiv (fst p) (snd p))), combine_nth by exact Hlen.
  reflexivity.
Qed.

Lemma nth_sub_values (c : float) (l : list float) (i : nat) :
  (i < length l)%nat ->
  nth i (map (fun v => fsub v c) l) NaN = fsub (nth i l NaN) c.
Proof.
  intros Hi.
  rewrite (nth_indep _ NaN (fsub NaN c)) by (rewrite length_map; exact Hi).
  apply (map_nth (fun v => fsub v c)).
Qed.

End SeriesFacts.

(** ** The JDK RS transform *)

Module Jdk.
Import Pandas RrgToolkit Subscript SeriesFacts.

Lemma fdiv_nan_r (a : float) : fdiv a NaN = NaN.
Proof. destruct a; reflexivity. Qed.

Lemma fsub_nan_r (a : float) : fsub a NaN = NaN.
Proof. destruct a; reflexivity. Qed.

Lemma Forall_firstn {A : Type} (P : A -> Prop) (n : nat) (l : list A) :
  Forall P l -> Forall P (firstn n l).
Proof.
  intros H. revert n. induction H as [| a l Ha _ IH]; intros [| n]; simpl;
    constructor; auto.
Qed.

Lemma Forall_skipn {A : Type} (P : A -> Prop) (n : nat) (l : list A) :
  Forall P l -> Forall P (skipn n l).
Proof.
  intros H. revert n. induction H as [| a l Ha Hl IH]; intros [| n]; simpl;
    auto.
Qed.

Lemma fsum_positive (l : list float) :
  Forall positive l ->
  exists s, fsum l = Fin s /\ 0 <= s /\ (l <> [] -> 0 < s).
Proof.
  intros H. induction H as [| a l [r [-> Hr]] _ [s [Hs [Hs0 _]]]].
  - exists 0. split; [reflexivity |]. split; [lra | congruence].
  - exists (r + s). unfold fsum in *. simpl. rewrite Hs.
    split; [reflexivity |]. split; [lra | intros _; lra].
Qed.

Lemma forallb_positive (l : list float) :
  Forall positive l -> forallb is_finite l = true.
Proof.
  intros H. apply forallb_forall. intros a Ha.
  rewrite Forall_forall in H. destruct (H a Ha) as [r [-> _]]. reflexivity.
Qed.

Lemma window_mean_positive (w : nat) (win : list float) :
  (0 < w)%nat -> Forall positive win -> win <> [] ->
  positive (window_mean w win).
Proof.
  intros Hw Hpos Hne. unfold window_mean.
  rewrite (forallb_positive win Hpos).
  destruct (fsum_positive win Hpos) as [s [-> [_ Hs]]]. specialize (Hs Hne).
  assert (HW : 0 < INR w) by (apply lt_0_INR; exact Hw).
  simpl. replace (Reqb (INR w) 0) with false
    by (symmetry; apply Reqb_false; lra).
  exists (s / INR w). split; [reflexivity |].
  apply Rdiv_lt_0_compat; assumption.
Qed.

(** A full window over positive observations has a positive mean. *)
Lemma rolling_mean_positive (w : nat) (vs : list float) (i : nat) :
  Forall positive vs -> (0 < w)%nat -> (w <= i + 1)%nat ->
  (i < length vs)%nat ->
  positive (nth i (rolling_mean_values w vs) NaN).
Proof.
  intros Hpos Hw Hi Hlen. rewrite nth_rolling_mean_values by exact Hlen.
  replace (i + 1 <? w)%nat with false by (symmetry; apply Nat.ltb_ge; exact Hi).
  apply window_mean_positive; [exact Hw | |].
  - apply Forall_firstn, Forall_skipn, Hpos.
  - intros Hnil. apply (f_equal (@length float)) in Hnil.
    rewrite length_firstn, length_skipn in Hnil. simpl in Hnil. lia.
Qed.

(** A window that is not full yet has no mean. *)
Lemma rolling_mean_head (w : nat) (vs : list float) (i : nat) :
  (i + 1 < w)%nat -> (i < length vs)%nat ->
  nth i (rolling_mean_values w vs) NaN = NaN.
Proof.
  intros Hi Hlen. rewrite nth_rolling_mean_values by exact Hlen.
  replace (i + 1 <? w)%nat with true by (symmetry; apply Nat.ltb_lt; exact Hi).
  reflexivity.
Qed.

Lemma ratio_values (data : Series) :
  values (calc_jdk_rs_ratio data) =
    map (fun v => fsub v (Fin 1))
      (map (fun p => fdiv (fst p) (snd p))
         (combine (rolling_mean_values 50 (values data))
                  (rolling_mean_values 200 (values data)))) /\
  index (calc_jdk_rs_ratio data) = index data /\
  length (calc_jdk_rs_ratio data) = length data.
Proof.
  unfold calc_jdk_rs_ratio.
  destruct (rolling_mean_spec 50 data) as [V50 [I50 L50]].
  destruct (rolling_mean_spec 200 data) as [V200 [I200 L200]].
  destruct (div_spec (rolling_mean 50 data) (rolling_mean 200 data))
    as [Vd [Id Ld]]; [congruence |].
  destruct (sub_scalar_spec (div (rolling_mean 50 data) (rolling_mean 200 data))
              (Fin 1)) as [Vs [Is Ls]].
  rewrite Vs, Vd, V50, V200. repeat split; congruence.
Qed.

Lemma nth_ratio (data : Series) (i : nat) :
  (i < length data)%nat ->
  nth i (values (calc_jdk_rs_ratio data)) NaN =
    fsub (fdiv (nth i (rolling_mean_values 50 (values data)) NaN)
               (nth i (rolling_mean_values 200 (values data)) NaN))
         (Fin 1).
Proof.
  intros Hi. destruct (ratio_values data) as [-> _].
  rewrite nth_sub_values
    by (rewrite length_map, length_combine, !rolling_mean_values_length,
          values_length; lia).
  rewrite nth_div_values
    by (rewrite !rolling_mean_values_length, ?values_length; trivial).
  reflexivity.
Qed.

Lemma ratio_head (data : Series) (i : nat) :
  (i < length data)%nat -> (i < 199)%nat ->
  nth i (values (calc_jdk_rs_ratio data)) NaN = NaN.
Proof.
  intros Hlen Hi. rewrite nth_ratio by exact Hlen.
  rewrite (rolling_mean_head 200) by (rewrite ?values_length; lia).
  rewrite fdiv_nan_r. reflexivity.
Qed.

Lemma ratio_defined (data : Series) (i : nat) :
  Forall positive (values data) ->
  (i < length data)%nat -> (199 <= i)%nat ->
  is_finite (nth i (values (calc_jdk_rs_ratio data)) NaN) = true.
Proof.
  intros Hpos Hlen Hi. rewrite nth_ratio by exact Hlen.
  destruct (rolling_mean_positive 50 (values data) i Hpos) as [a [-> Ha]];
    [lia | lia | rewrite values_length; exact Hlen |].
  destruct (rolling_mean_positive 200 (values data) i Hpos) as [b [-> Hb]];
    [lia | lia | rewrite values_length; exact Hlen |].
  simpl. replace (Reqb b 0) with false by (symmetry; apply Reqb_false; lra).
  reflexivity.
Qed.

Lemma momentum_values (data : Series) :
  values (calc_jdk_rs_momentum (calc_jdk_rs_ratio data)) =
    diff_values 20 (values (calc_jdk_rs_ratio data)) /\
  index (calc_jdk_rs_momentum (calc_jdk_rs_ratio data)) = index data /\
  length (calc_jdk_rs_momentum (calc_jdk_rs_ratio data)) = length data.
Proof.
  unfold calc_jdk_rs_momentum.
  destruct (diff_spec 20 (calc_jdk_rs_ratio data)) as [V [I L]].
  destruct (ratio_values data) as [_ [Ir Lr]].
  repeat split; congruence.
Qed.

Lemma nth_momentum (data : Series) (i : nat) :
  (i < length data)%nat ->
  nth i (values (calc_jdk_rs_momentum (calc_jdk_rs_ratio data))) NaN =
    if (i <? 20)%nat then NaN
    else fsub (nth i (values (calc_jdk_rs_ratio data)) NaN)
              (nth (i - 20) (values (calc_jdk_rs_ratio data)) NaN).
Proof.
  intros Hi. destruct (momentum_values data) as [-> _].
  apply nth_diff_values.
  destruct (ratio_values data) as [_ [_ L]].
  rewrite values_length, L. exact Hi.
Qed.

Lemma momentum_head (data : Series) (i : nat) :
  (i < length data)%nat -> (i < 219)%nat ->
  nth i (values (calc_jdk_rs_momentum (calc_jdk_rs_ratio data))) NaN = NaN.
Proof.
  intros Hlen Hi. rewrite nth_momentum by exact Hlen.
  destruct (i <? 20)%nat eqn:H20; [reflexivity |].
  apply Nat.ltb_ge in H20.
  rewrite (ratio_head data (i - 20)) by lia.
  apply fsub_nan_r.
Qed.

Lemma momentum_defined (data : Series) (i : nat) :
  Forall positive (values data) ->
  (i < length data)%nat -> (219 <= i)%nat ->
  is_finite (nth i (values (calc_jdk_rs_momentum (calc_jdk_rs_ratio data))) NaN)
    = true.
Proof.
  intros Hpos Hlen Hi. rewrite nth_momentum by exact Hlen.
  replace (i <? 20)%nat with false by (symmetry; apply Nat.ltb_ge; lia).
  pose proof (ratio_defined data i Hpos Hlen) as H1.
  pose proof (ratio_defined data (i - 20) Hpos) as H2.
  destruct (nth i _ NaN); try (discriminate H1; lia).
  destruct (nth (i - 20) _ NaN); try (discriminate H2; lia).
  reflexivity.
Qed.

(** *** The sample of two hundred days *)

Lemma daily_values (vs : list float) : values (Sample.daily vs) = vs.
Proof.
  unfold Sample.daily, values. apply map_snd_combine.
  rewrite length_map, length_seq. reflexivity.
Qed.

Lemma daily_length (vs : list float) : length (Sample.daily vs) = length vs.
Proof.
  unfold Sample.daily. rewrite length_combine, length_map, length_seq. lia.
Qed.

Lemma flat_200_positive : Forall positive (values Sample.flat_200).
Proof.
  unfold Sample.flat_200. rewrite daily_values.
  apply Forall_forall. intros a Ha. apply repeat_spec in Ha. subst a.
  exists 1. split; [reflexivity | lra].
Qed.

Lemma flat_200_length : length Sample.flat_200 = 200%nat.
Proof. unfold Sample.flat_200. rewrite daily_length. apply repeat_length. Qed.

(** C5. [calculate_jdk_rs] raises its [ValueError] for every series of
    fewer than 200 points, and raises nothing from 200 points on, so in
    particular for a series of exactly 200 points. *)
Theorem calculate_jdk_rs_minimum_length (data : Series) :
  ((length data < 200)%nat ->
     raises (calculate_jdk_rs data)
       (ValueError "Input data must have at least 200 data points")) /\
  ((length data = 200)%nat -> succeeds (calculate_jdk_rs data)) /\
  ((200 <= length data)%nat -> succeeds (calculate_jdk_rs data)).
Proof.
  unfold calculate_jdk_rs, raises, succeeds.
  destruct (length data <? 200)%nat eqn:H;
    [apply Nat.ltb_lt in H | apply Nat.ltb_ge in H].
  - split; [reflexivity | split; lia].
  - split; [lia | split; intros _; eexists; reflexivity].
Qed.

Lemma calculate_jdk_rs_minimum_length_witness :
  raises (calculate_jdk_rs [])
    (ValueError "Input data must have at least 200 data points") /\
  succeeds (calculate_jdk_rs Sample.flat_200).
Proof.
  split.
  - apply (proj1 (calculate_jdk_rs_minimum_length [])). simpl. lia.
  - apply (proj1 (proj2 (calculate_jdk_rs_minimum_length Sample.flat_200))).
    exact flat_200_length.
Defined.

(** C2, as the code has it: on a series of at least 200 positive values
    the RS Ratio is missing on exactly the first 199 timestamps (positions
    0 to 198) and is a number from the 200th timestamp on; the RS Momentum
    is missing on exactly the first 219 timestamps, that is on the first 20
    timestamps that have an RS Ratio as well, and is a number afterwards. *)
Theorem jdk_rs_defined_from (data : Series) :
  (200 <= length data)%nat ->
  Forall positive (values data) ->
  exists ratio momentum,
    calculate_jdk_rs data =
      Ok [("JDK RS Ratio"%string, ratio); ("JDK RS Momentum"%string, momentum)] /\
    index ratio = index data /\
    index momentum = index data /\
    forall i, (i < length data)%nat ->
      ((i < 199)%nat -> nth i (values ratio) NaN = NaN) /\
      ((199 <= i)%nat -> is_finite (nth i (values ratio) NaN) = true) /\
      ((i < 219)%nat -> nth i (values momentum) NaN = NaN) /\
      ((219 <= i)%nat -> is_finite (nth i (values momentum) NaN) = true).
Proof.
  intros Hlen Hpos.
  exists (calc_jdk_rs_ratio data), (calc_jdk_rs_momentum (calc_jdk_rs_ratio data)).
  split; [| split; [| split]].
  - unfold calculate_jdk_rs.
    replace (length data <? 200)%nat with false
      by (symmetry; apply Nat.ltb_ge; exact Hlen).
    reflexivity.
  - apply ratio_values.
  - apply momentum_values.
  - intros i Hi. repeat split; intros Hb.
    + apply ratio_head; assumption.
    + apply ratio_defined; assumption.
    + apply momentum_head; assumption.
    + apply momentum_defined; assumption.
Qed.

Lemma jdk_rs_defined_from_witness :
  exists ratio momentum,
    calculate_jdk_rs Sample.flat_200 =
      Ok [("JDK RS Ratio"%string, ratio); ("JDK RS Momentum"%string, momentum)] /\
    index ratio = index Sample.flat_200 /\
    index momentum = index Sample.flat_200 /\
    forall i, (i < length Sample.flat_200)%nat ->
      ((i < 199)%nat -> nth i (values ratio) NaN = NaN) /\
      ((199 <= i)%nat -> is_finite (nth i (values ratio) NaN) = true) /\
      ((i < 219)%nat -> nth i (values momentum) NaN = NaN) /\
      ((219 <= i)%nat -> is_finite (nth i (values momentum) NaN) = true).
Proof.
  apply (jdk_rs_defined_from Sample.flat_200).
  - rewrite flat_200_length. lia.
  - exact flat_200_positive.
Defined.

Lemma fsum_ones (n : nat) : fsum (repeat (Fin 1) n) = Fin (INR n).
Proof.
  induction n as [| n IH]; [reflexivity |].
  change (fsum (repeat (Fin 1) (S n))) with (fadd (Fin 1) (fsum (repeat (Fin 1) n))).
  rewrite IH, S_INR. simpl. apply f_equal. lra.
Qed.

Lemma window_mean_ones (w : nat) :
  (0 < w)%nat -> window_mean w (repeat (Fin 1) w) = Fin 1.
Proof.
  intros Hw. unfold window_mean.
  replace (forallb is_finite (repeat (Fin 1) w)) with true
    by (symmetry; apply forallb_forall; intros a Ha; apply repeat_spec in Ha;
        subst a; reflexivity).
  rewrite fsum_ones.
  assert (HW : 0 < INR w) by (apply lt_0_INR; exact Hw).
  simpl. replace (Reqb (INR w) 0) with false
    by (symmetry; apply Reqb_false; lra).
  apply f_equal. field. lra.
Qed.

Lemma flat_200_ratio :
  nth 199 (values (calc_jdk_rs_ratio Sample.flat_200)) NaN = Fin 0.
Proof.
  rewrite nth_ratio by (rewrite flat_200_length; lia).
  rewrite !nth_rolling_mean_values
    by (rewrite values_length, flat_200_length; lia).
  unfold Sample.flat_200. rewrite daily_values.
  change (firstn 50 (skipn (199 + 1 - 50) (repeat (Fin 1) 200)))
    with (repeat (Fin 1) 50).
  change (firstn 200 (skipn (199 + 1 - 200) (repeat (Fin 1) 200)))
    with (repeat (Fin 1) 200).
  rewrite !window_mean_ones by lia.
  change (199 + 1 <? 50)%nat with false. change (199 + 1 <? 200)%nat with false.
  cbn [fdiv]. real_tests. unfold fsub. cbn [fneg fadd]. apply f_equal. lra.
Qed.

(** C2, as stated, fails on the 200th timestamp: on two hundred days of a
    relative strength of 1 the RS Ratio of the last day, position 199, is
    [50/50 / (200/200) - 1 = 0]. *)
Lemma ratio_defined_on_day_200 :
  length Sample.flat_200 = 200%nat /\
  calculate_jdk_rs Sample.flat_200 =
    Ok [("JDK RS Ratio"%string, calc_jdk_rs_ratio Sample.flat_200);
        ("JDK RS Momentum"%string,
         calc_jdk_rs_momentum (calc_jdk_rs_ratio Sample.flat_200))] /\
  nth 199 (values (calc_jdk_rs_ratio Sample.flat_200)) NaN = Fin 0.
Proof.
  split; [exact flat_200_length |]. split.
  - unfold calculate_jdk_rs. rewrite flat_200_length. reflexivity.
  - exact flat_200_ratio.
Qed.

End Jdk.

(** ** Relative strength against the benchmark *)

Module Ratios.
Import Pandas RrgToolkit Subscript SeriesFacts.

Lemma lookup_set_same (df : Frame string) (k : string) (s : Series) :
  lookup String.eqb k (set String.eqb df k s) = Some s.
Proof.
  induction df as [| [k' s'] df IH]; simpl.
  - rewrite String.eqb_refl. reflexivity.
  - destruct (String.eqb k k') eqn:H; simpl; rewrite H; [reflexivity | exact IH].
Qed.

Lemma lookup_set_other (df : Frame string) (k k' : string) (s : Series) :
  k <> k' ->
  lookup String.eqb k (set String.eqb df k' s) = lookup String.eqb k df.
Proof.
  intros Hne. induction df as [| [k'' s''] df IH]; simpl.
  - apply String.eqb_neq in Hne. rewrite Hne. reflexivity.
  - destruct (String.eqb k' k'') eqn:H; simpl.
    + apply String.eqb_eq in H. subst k''.
      apply String.eqb_neq in Hne. rewrite Hne. reflexivity.
    + rewrite IH. reflexivity.
Qed.

Lemma lookup_columns (df : Frame string) (k : string) :
  In k (columns df) <-> exists s, lookup String.eqb k df = Some s.
Proof.
  induction df as [| [k' s'] df IH]; simpl.
  - split; [intros [] | intros [s H]; discriminate].
  - destruct (String.eqb k k') eqn:H.
    + apply String.eqb_eq in H. subst k'. split; [eauto | auto].
    + apply String.eqb_neq in H. rewrite <- IH. split.
      * intros [Heq | Hin]; [congruence | exact Hin].
      * auto.
Qed.

(** The loop over the columns returns a frame that holds, for every column
    it went through, that column divided by the benchmark. *)
Lemma rs_ratios_loop_spec (prices : Frame string) (benchmark_prices : Series)
    (etfs : list string) :
  (forall etf, In etf etfs -> In etf (columns prices)) ->
  forall rs_ratios,
  exists out,
    rs_ratios_loop prices benchmark_prices etfs rs_ratios = Ok out /\
    forall k column,
      lookup String.eqb k prices = Some column ->
      (In k etfs -> lookup String.eqb k out = Some (div column benchmark_prices)) /\
      (~ In k etfs -> lookup String.eqb k out = lookup String.eqb k rs_ratios).
Proof.
  induction etfs as [| etf rest IH]; intros Hcols rs_ratios; simpl.
  - eexists. split; [reflexivity |]. intros k column _. split; [intros [] | reflexivity].
  - destruct (proj1 (lookup_columns prices etf)) as [column Hcol];
      [apply Hcols; left; reflexivity |].
    unfold get. rewrite Hcol. cbn [bind Ok].
    destruct (IH (fun e He => Hcols e (or_intror He))
                (set String.eqb rs_ratios etf (div column benchmark_prices)))
      as [out [Hout Hlook]].
    exists out. split; [exact Hout |].
    intros k column' Hk. destruct (Hlook k column' Hk) as [Hin Hnotin].
    destruct (in_dec string_dec k rest) as [Hrest | Hrest].
    + split; [intros _; exact (Hin Hrest) | intros H; exfalso; apply H; right; exact Hrest].
    + rewrite (Hnotin Hrest). split.
      * intros [<- | H]; [| contradiction].
        rewrite lookup_set_same. congruence.
      * intros H. apply lookup_set_other. intros ->. apply H. left. reflexivity.
Qed.

Lemma combine_self {A : Type} (l : list A) :
  combine l l = map (fun a => (a, a)) l.
Proof. induction l as [| a l IH]; simpl; [| rewrite IH]; reflexivity. Qed.

Lemma fdiv_self (a : float) : fdiv a a = self_ratio a.
Proof.
  destruct a as [| | | x]; try reflexivity. simpl.
  destruct (Reqb x 0) eqn:H; [reflexivity |].
  apply Reqb_false in H. apply f_equal. field. exact H.
Qed.

Lemma div_self (s : Series) :
  values (div s s) = map self_ratio (values s) /\ index (div s s) = index s.
Proof.
  destruct (div_spec s s eq_refl) as [V [I _]].
  split; [| exact I].
  rewrite V, combine_self, map_map. apply map_ext. intros a. apply fdiv_self.
Qed.

Lemma self_ratio_real (l : list float) :
  Forall (fun p => exists x, p = Fin x /\ x <> 0) l ->
  map self_ratio l = repeat (Fin 1) (length l).
Proof.
  intros H. induction H as [| p ps [x [-> Hx]] _ IH]; simpl; [reflexivity |].
  apply Reqb_false in Hx. rewrite Hx, IH. reflexivity.
Qed.

(** The benchmark's column of the result is the benchmark divided by
    itself. *)
Lemma benchmark_column (prices : Frame string) (benchmark : string)
    (benchmark_prices : Series) :
  lookup String.eqb benchmark prices = Some benchmark_prices ->
  exists out,
    calculate_rs_ratios prices benchmark = Ok out /\
    lookup String.eqb benchmark out = Some (div benchmark_prices benchmark_prices).
Proof.
  intros Hb. unfold calculate_rs_ratios, get. rewrite Hb. cbn [bind Ok].
  destruct (rs_ratios_loop_spec prices benchmark_prices (columns prices)
              (fun e He => He) []) as [out [Hout Hlook]].
  exists out. split; [exact Hout |].
  apply (Hlook benchmark benchmark_prices Hb).
  apply lookup_columns. eauto.
Qed.

(** C7, as the code has it: on a price table with distinct column names
    that holds the benchmark, the benchmark's column of the result is over
    the index of the input, and holds 1.0 at every timestamp where the
    benchmark price is a real number other than zero, and [nan] at every
    other timestamp; so it is the constant series 1.0 when every benchmark
    price is a real number other than zero. *)
Theorem benchmark_against_itself (prices : Frame string) (benchmark : string)
    (benchmark_prices : Series) :
  NoDup (columns prices) ->
  lookup String.eqb benchmark prices = Some benchmark_prices ->
  exists out column,
    calculate_rs_ratios prices benchmark = Ok out /\
    lookup String.eqb benchmark out = Some column /\
    index column = index benchmark_prices /\
    values column = map self_ratio (values benchmark_prices) /\
    (Forall (fun p => exists x, p = Fin x /\ x <> 0) (values benchmark_prices) ->
     values column = repeat (Fin 1) (length benchmark_prices)).
Proof.
  intros _ Hb.
  destruct (benchmark_column prices benchmark benchmark_prices Hb)
    as [out [Hout Hcol]].
  destruct (div_self benchmark_prices) as [V I].
  exists out, (div benchmark_prices benchmark_prices).
  split; [exact Hout |]. split; [exact Hcol |]. split; [exact I |].
  split; [exact V |].
  intros Hreal. rewrite V, <- (values_length benchmark_prices).
  apply self_ratio_real. exact Hreal.
Qed.

Lemma benchmark_against_itself_witness :
  exists out column,
    calculate_rs_ratios Sample.one_day "B"%string = Ok out /\
    lookup String.eqb "B"%string out = Some column /\
    index column = index (Sample.daily [Fin 4]) /\
    values column = map self_ratio (values (Sample.daily [Fin 4])) /\
    (Forall (fun p => exists x, p = Fin x /\ x <> 0)
            (values (Sample.daily [Fin 4])) ->
     values column = repeat (Fin 1) (length (Sample.daily [Fin 4]))).
Proof.
  apply (benchmark_against_itself Sample.one_day "B"%string (Sample.daily [Fin 4])).
  - repeat constructor; simpl; intuition discriminate.
  - reflexivity.
Defined.

(** C7, as stated, fails where the benchmark price is zero or missing: on
    such a day the benchmark's own ratio is [0/0] or [nan/nan], which is
    [nan]. *)
Lemma benchmark_zero_or_missing_price :
  exists out column,
    calculate_rs_ratios Sample.three_days "B"%string = Ok out /\
    lookup String.eqb "B"%string out = Some column /\
    values column = [NaN; NaN; Fin 1].
Proof.
  destruct (benchmark_column Sample.three_days "B"%string
              (Sample.daily [Fin 0; NaN; Fin 4]) eq_refl) as [out [Hout Hcol]].
  exists out, (div (Sample.daily [Fin 0; NaN; Fin 4])
                   (Sample.daily [Fin 0; NaN; Fin 4])).
  split; [exact Hout |]. split; [exact Hcol |].
  destruct (div_self (Sample.daily [Fin 0; NaN; Fin 4])) as [-> _].
  rewrite Jdk.daily_values. cbn [map self_ratio].
  real_tests. reflexivity.
Qed.

End Ratios.

(** * Further properties *)

(** ** The relative-strength table *)

Module RatioTable.
Import Pandas RrgToolkit Subscript SeriesFacts Derived.

Lemma lookup_app_new (front back : Frame string) (k : string) :
  ~ In k (columns front) ->
  lookup String.eqb k (front ++ back) = lookup String.eqb k back.
Proof.
  induction front as [| [k' s'] front IH]; simpl; intros Hk; [reflexivity |].
  destruct (String.eqb k k') eqn:H.
  - apply String.eqb_eq in H. subst k'. exfalso. apply Hk. left. reflexivity.
  - apply IH. intros Hin. apply Hk. right. exact Hin.
Qed.

Lemma set_new (df : Frame string) (k : string) (s : Series) :
  ~ In k (columns df) -> set String.eqb df k s = df ++ [(k, s)].
Proof.
  induction df as [| [k' s'] df IH]; simpl; intros Hk; [reflexivity |].
  destruct (String.eqb k k') eqn:H.
  - apply String.eqb_eq in H. subst k'. exfalso. apply Hk. left. reflexivity.
  - rewrite IH; [reflexivity |]. intros Hin. apply Hk. right. exact Hin.
Qed.

Lemma ratio_frame_columns (prices : Frame string) (benchmark_prices : Series) :
  columns (ratio_frame prices benchmark_prices) = columns prices.
Proof.
  unfold columns, ratio_frame. rewrite map_map. reflexivity.
Qed.

Lemma ratio_frame_lookup (prices : Frame string) (benchmark_prices : Series)
    (k : string) :
  lookup String.eqb k (ratio_frame prices benchmark_prices) =
    option_map (fun column => div column benchmark_prices)
               (lookup String.eqb k prices).
Proof.
  induction prices as [| [k' s'] prices IH]; simpl; [reflexivity |].
  destruct (String.eqb k k'); [reflexivity | exact IH].
Qed.

(** With column names that are distinct, the loop goes through the table
    from left to right and leaves each column divided by the benchmark. *)
Lemma rs_ratios_loop_frame (benchmark_prices : Series) (todo : Frame string) :
  forall done,
    NoDup (columns (done ++ todo)) ->
    rs_ratios_loop (done ++ todo) benchmark_prices (columns todo)
      (ratio_frame done benchmark_prices)
    = Ok (ratio_frame (done ++ todo) benchmark_prices).
Proof.
  induction todo as [| [k s] todo IH]; intros done Hnd; simpl.
  - rewrite app_nil_r. reflexivity.
  - assert (Hk : ~ In k (columns done)).
    { unfold columns in *. rewrite map_app in Hnd. simpl in Hnd.
      apply NoDup_remove_2 in Hnd. intros Hin. apply Hnd.
      apply in_or_app. left. exact Hin. }
    unfold get. rewrite (lookup_app_new done _ k Hk). simpl.
    rewrite String.eqb_refl. cbn [bind Ok].
    rewrite set_new by (rewrite ratio_frame_columns; exact Hk).
    replace (ratio_frame done benchmark_prices ++ [(k, div s benchmark_prices)])
      with (ratio_frame (done ++ [(k, s)]) benchmark_prices)
      by (unfold ratio_frame; rewrite map_app; reflexivity).
    replace (done ++ (k, s) :: todo) with ((done ++ [(k, s)]) ++ todo)
      by (rewrite <- app_assoc; reflexivity).
    apply IH. rewrite <- app_assoc. exact Hnd.
Qed.

Lemma calculate_rs_ratios_frame (prices : Frame string) (benchmark : string)
    (benchmark_prices : Series) :
  NoDup (columns prices) ->
  lookup String.eqb benchmark prices = Some benchmark_prices ->
  calculate_rs_ratios prices benchmark = Ok (ratio_frame prices benchmark_prices).
Proof.
  intros Hnd Hb. unfold calculate_rs_ratios, get. rewrite Hb. cbn [bind Ok].
  exact (rs_ratios_loop_frame benchmark_prices prices [] Hnd).
Qed.

(** X1. [calculate_rs_ratios] raises [KeyError] whenever the benchmark is
    not a column of the price table, so it returns only when the benchmark
    is one; on a table with distinct column names it returns whenever the
    benchmark is a column, and raises [KeyError] only when it is not. *)
Theorem calculate_rs_ratios_key_error (prices : Frame string)
    (benchmark : string) :
  (~ In benchmark (columns prices) ->
     raises (calculate_rs_ratios prices benchmark) KeyError) /\
  (succeeds (calculate_rs_ratios prices benchmark) ->
     In benchmark (columns prices)) /\
  (NoDup (columns prices) ->
     (In benchmark (columns prices) ->
        succeeds (calculate_rs_ratios prices benchmark)) /\
     (raises (calculate_rs_ratios prices benchmark) KeyError ->
        ~ In benchmark (columns prices))).
Proof.
  assert (Habsent : ~ In benchmark (columns prices) ->
            calculate_rs_ratios prices benchmark = Raise KeyError).
  { intros Hb. unfold calculate_rs_ratios, get.
    destruct (lookup String.eqb benchmark prices) as [bs |] eqn:Hl;
      [| reflexivity].
    exfalso. apply Hb. apply Ratios.lookup_columns. eauto. }
  split; [exact Habsent |]. split.
  - intros [out Hout].
    destruct (in_dec string_dec benchmark (columns prices)) as [Hin | Hnot];
      [exact Hin |].
    rewrite (Habsent Hnot) in Hout. discriminate.
  - intros Hnd.
    assert (Hpresent : In benchmark (columns prices) ->
              succeeds (calculate_rs_ratios prices benchmark)).
    { intros Hin. apply Ratios.lookup_columns in Hin. destruct Hin as [bs Hb].
      exists (ratio_frame prices bs).
      exact (calculate_rs_ratios_frame prices benchmark bs Hnd Hb). }
    split; [exact Hpresent |].
    intros Hraise Hin. destruct (Hpresent Hin) as [out Hout].
    unfold raises in Hraise. rewrite Hout in Hraise. discriminate.
Qed.

(** X2. On a price table with distinct column names that holds the
    benchmark, [calculate_rs_ratios] returns a table with the same column
    names in the same order, and each column of it is the price column
    divided by the benchmark column: over the same dates, the price of
    each date divided by the benchmark price of that date. *)
Theorem calculate_rs_ratios_columns (prices : Frame string)
    (benchmark : string) (benchmark_prices : Series) :
  NoDup (columns prices) ->
  lookup String.eqb benchmark prices = Some benchmark_prices ->
  exists out,
    calculate_rs_ratios prices benchmark = Ok out /\
    columns out = columns prices /\
    forall etf column,
      lookup String.eqb etf prices = Some column ->
      length column = length benchmark_prices ->
      exists rs_ratio,
        lookup String.eqb etf out = Some rs_ratio /\
        index rs_ratio = index column /\
        forall i, (i < length column)%nat ->
          nth i (values rs_ratio) NaN =
            fdiv (nth i (values column) NaN) (nth i (values benchmark_prices) NaN).
Proof.
  intros Hnd Hb. exists (ratio_frame prices benchmark_prices).
  split; [exact (calculate_rs_ratios_frame _ _ _ Hnd Hb) |].
  split; [apply ratio_frame_columns |].
  intros etf column Hcol Hlen. exists (div column benchmark_prices).
  rewrite ratio_frame_lookup, Hcol.
  destruct (div_spec column benchmark_prices Hlen) as [V [I _]].
  split; [reflexivity |]. split; [exact I |].
  intros i Hi. rewrite V. apply nth_div_values.
  - rewrite !values_length. exact Hlen.
  - rewrite values_length. exact Hi.
Qed.

Lemma calculate_rs_ratios_columns_witness :
  exists out,
    calculate_rs_ratios Sample.three_days "B"%string = Ok out /\
    columns out = columns Sample.three_days /\
    forall etf column,
      lookup String.eqb etf Sample.three_days = Some column ->
      length column = length (Sample.daily [Fin 0; NaN; Fin 4]) ->
      exists rs_ratio,
        lookup String.eqb etf out = Some rs_ratio /\
        index rs_ratio = index column /\
        forall i, (i < length column)%nat ->
          nth i (values rs_ratio) NaN =
            fdiv (nth i (values column) NaN)
                 (nth i (values (Sample.daily [Fin 0; NaN; Fin 4])) NaN).
Proof.
  apply (calculate_rs_ratios_columns Sample.three_days "B"%string
           (Sample.daily [Fin 0; NaN; Fin 4])).
  - repeat constructor; simpl; intuition discriminate.
  - reflexivity.
Defined.

Lemma series_eta (s : Series) : on_index s (values s) = s.
Proof.
  unfold on_index, index, values.
  induction s as [| [t v] s IH]; simpl; [| rewrite IH]; reflexivity.
Qed.

Lemma fdiv_one (a : float) : fdiv a (Fin 1) = a.
Proof.
  destruct a as [| | | x]; simpl; real_tests; try reflexivity.
  apply f_equal. field.
Qed.

Lemma div_by_ones (l : list float) :
  map (fun p => fdiv (fst p) (snd p)) (combine l (repeat (Fin 1) (length l))) = l.
Proof.
  induction l as [| a l IH]; simpl; [reflexivity |].
  rewrite IH. f_equal. apply fdiv_one.
Qed.

(** Dividing once more by a benchmark that has become the constant 1
    changes nothing. *)
Lemma div_div_self (column benchmark_prices : Series) :
  length column = length benchmark_prices ->
  Forall real_nonzero (values benchmark_prices) ->
  div (div column benchmark_prices) (div benchmark_prices benchmark_prices)
  = div column benchmark_prices.
Proof.
  intros Hlen Hreal.
  destruct (div_spec column benchmark_prices Hlen) as [_ [_ L]].
  destruct (Ratios.div_self benchmark_prices) as [V _].
  rewrite (Ratios.self_ratio_real _ Hreal) in V.
  unfold div at 1. rewrite V.
  replace (length (values benchmark_prices))
    with (length (values (div column benchmark_prices)))
    by (rewrite !values_length; congruence).
  rewrite div_by_ones. apply series_eta.
Qed.

(** X3. Relative strength is idempotent: on a price table with distinct
    column names, columns of one length, and benchmark prices that are all
    real numbers other than zero, applying [calculate_rs_ratios] to its own
    result, with the same benchmark, returns that result again. *)
Theorem calculate_rs_ratios_idempotent (prices : Frame string)
    (benchmark : string) (benchmark_prices : Series) :
  NoDup (columns prices) ->
  lookup String.eqb benchmark prices = Some benchmark_prices ->
  Forall (fun kc => length (snd kc) = length benchmark_prices) prices ->
  Forall real_nonzero (values benchmark_prices) ->
  exists out,
    calculate_rs_ratios prices benchmark = Ok out /\
    calculate_rs_ratios out benchmark = Ok out.
Proof.
  intros Hnd Hb Hlen Hreal. exists (ratio_frame prices benchmark_prices).
  split; [exact (calculate_rs_ratios_frame _ _ _ Hnd Hb) |].
  rewrite (calculate_rs_ratios_frame (ratio_frame prices benchmark_prices)
             benchmark (div benchmark_prices benchmark_prices)).
  - apply f_equal. unfold ratio_frame. rewrite map_map.
    apply map_ext_in. intros [k s] Hin. simpl. f_equal.
    apply div_div_self; [| exact Hreal].
    rewrite Forall_forall in Hlen. exact (Hlen (k, s) Hin).
  - rewrite ratio_frame_columns. exact Hnd.
  - rewrite ratio_frame_lookup, Hb. reflexivity.
Qed.

Lemma calculate_rs_ratios_idempotent_witness :
  exists out,
    calculate_rs_ratios Sample.one_day "B"%string = Ok out /\
    calculate_rs_ratios out "B"%string = Ok out.
Proof.
  apply (calculate_rs_ratios_idempotent Sample.one_day "B"%string
           (Sample.daily [Fin 4])).
  - repeat constructor; simpl; intuition discriminate.
  - reflexivity.
  - repeat constructor.
  - repeat constructor. exists 4. split; [reflexivity | lra].
Defined.

End RatioTable.

(** ** The values of the JDK RS transform *)

Module JdkValues.
Import Pandas RrgToolkit Subscript SeriesFacts Derived.

Lemma window_length (w i : nat) (vs : list float) :
  (w <= i + 1)%nat -> (i < length vs)%nat -> length (window w i vs) = w.
Proof.
  intros Hw Hi. unfold window. rewrite length_firstn, length_skipn. lia.
Qed.

Lemma nth_window (w i k : nat) (vs : list float) :
  (k < w)%nat -> nth k (window w i vs) NaN = nth (i + 1 - w + k) vs NaN.
Proof.
  intros Hk. unfold window. rewrite nth_firstn.
  replace (k <? w)%nat with true by (symmetry; apply Nat.ltb_lt; exact Hk).
  apply nth_skipn.
Qed.

Lemma window_finite (w i : nat) (vs : list float) :
  Forall (fun v => is_finite v = true) vs ->
  forallb is_finite (window w i vs) = true.
Proof.
  intros H. apply forallb_forall. apply Forall_forall.
  unfold window. apply Jdk.Forall_firstn, Jdk.Forall_skipn, H.
Qed.

Lemma fsum_finite (l : list float) :
  forallb is_finite l = true -> fsum l = Fin (Rsum (map real_of l)).
Proof.
  induction l as [| a l IH]; simpl; intros H; [reflexivity |].
  apply andb_true_iff in H. destruct H as [Ha Hl].
  destruct a; try discriminate.
  unfold fsum in *. simpl. rewrite (IH Hl). reflexivity.
Qed.

Lemma window_mean_finite (w : nat) (win : list float) :
  (0 < w)%nat -> forallb is_finite win = true ->
  window_mean w win = Fin (Rsum (map real_of win) / INR w).
Proof.
  intros Hw H. unfold window_mean. rewrite H, (fsum_finite win H).
  assert (HW : 0 < INR w) by (apply lt_0_INR; exact Hw).
  simpl. real_tests. reflexivity.
Qed.

(** On a series of real numbers a full window has its arithmetic mean. *)
Lemma rolling_mean_value (w : nat) (vs : list float) (i : nat) :
  Forall (fun v => is_finite v = true) vs ->
  (0 < w)%nat -> (w <= i + 1)%nat -> (i < length vs)%nat ->
  nth i (rolling_mean_values w vs) NaN = Fin (mean_at w i vs).
Proof.
  intros Hfin Hw Hi Hlen. rewrite nth_rolling_mean_values by exact Hlen.
  replace (i + 1 <? w)%nat with false by (symmetry; apply Nat.ltb_ge; exact Hi).
  apply (window_mean_finite w (window w i vs) Hw).
  apply window_finite. exact Hfin.
Qed.

Lemma positive_finite (vs : list float) :
  Forall positive vs -> Forall (fun v => is_finite v = true) vs.
Proof.
  intros H. eapply Forall_impl; [| exact H]. intros a [r [-> _]]. reflexivity.
Qed.

Lemma mean_at_positive (w : nat) (vs : list float) (i : nat) :
  Forall positive vs ->
  (0 < w)%nat -> (w <= i + 1)%nat -> (i < length vs)%nat ->
  0 < mean_at w i vs.
Proof.
  intros Hpos Hw Hi Hlen.
  destruct (Jdk.rolling_mean_positive w vs i Hpos Hw Hi Hlen) as [m [Hm Hm0]].
  rewrite (rolling_mean_value w vs i (positive_finite vs Hpos) Hw Hi Hlen) in Hm.
  assert (E : mean_at w i vs = m) by congruence.
  rewrite E. exact Hm0.
Qed.

(** X4. On a series of real numbers the RS Ratio of a position [i >= 199]
    is the mean of the last 50 values divided by the mean of the last 200
    values, minus 1.  A mean of the last 200 values that is zero raises
    nothing: the RS Ratio is then [nan] when the mean of the last 50 is
    zero too, [inf] when it is positive and [-inf] when it is negative. *)
Theorem rs_ratio_formula (data : Series) (i : nat) :
  Forall (fun v => is_finite v = true) (values data) ->
  (i < length data)%nat -> (199 <= i)%nat ->
  (mean_at 200 i (values data) <> 0 ->
     nth i (values (calc_jdk_rs_ratio data)) NaN =
       Fin (mean_at 50 i (values data) / mean_at 200 i (values data) - 1)) /\
  (mean_at 200 i (values data) = 0 -> mean_at 50 i (values data) = 0 ->
     nth i (values (calc_jdk_rs_ratio data)) NaN = NaN) /\
  (mean_at 200 i (values data) = 0 -> 0 < mean_at 50 i (values data) ->
     nth i (values (calc_jdk_rs_ratio data)) NaN = PInf) /\
  (mean_at 200 i (values data) = 0 -> mean_at 50 i (values data) < 0 ->
     nth i (values (calc_jdk_rs_ratio data)) NaN = NInf).
Proof.
  intros Hfin Hlen Hi. rewrite Jdk.nth_ratio by exact Hlen.
  rewrite !rolling_mean_value by (rewrite ?values_length; trivial; lia).
  repeat split; intros H0; try intros H1; simpl; real_tests; reflexivity.
Qed.

Lemma rs_ratio_formula_witness :
  nth 199 (values (calc_jdk_rs_ratio Sample.flat_200)) NaN =
    Fin (mean_at 50 199 (values Sample.flat_200)
         / mean_at 200 199 (values Sample.flat_200) - 1).
Proof.
  assert (Hfin : Forall (fun v => is_finite v = true) (values Sample.flat_200))
    by exact (positive_finite _ Jdk.flat_200_positive).
  assert (Hlen : (199 < length Sample.flat_200)%nat)
    by (rewrite Jdk.flat_200_length; lia).
  apply (proj1 (rs_ratio_formula Sample.flat_200 199 Hfin Hlen (le_n 199))).
  apply Rgt_not_eq.
  apply (mean_at_positive 200 (values Sample.flat_200) 199 Jdk.flat_200_positive);
    try lia.
  rewrite values_length. exact Hlen.
Defined.

(** X5. Whatever the values of a series of at least 200 points,
    [calculate_jdk_rs] returns the two columns over the dates of the input;
    the RS Momentum is missing on the first 20 positions and is, from
    position 20 on, the RS Ratio minus the RS Ratio 20 positions earlier;
    the first 199 RS Ratios and the first 219 RS Momentums are missing. *)
Theorem jdk_rs_momentum_is_difference (data : Series) :
  (200 <= length data)%nat ->
  exists ratio momentum,
    calculate_jdk_rs data =
      Ok [("JDK RS Ratio"%string, ratio); ("JDK RS Momentum"%string, momentum)] /\
    index ratio = index data /\
    index momentum = index data /\
    forall i, (i < length data)%nat ->
      ((i < 20)%nat -> nth i (values momentum) NaN = NaN) /\
      ((20 <= i)%nat ->
         nth i (values momentum) NaN =
           fsub (nth i (values ratio) NaN) (nth (i - 20) (values ratio) NaN)) /\
      ((i < 199)%nat -> nth i (values ratio) NaN = NaN) /\
      ((i < 219)%nat -> nth i (values momentum) NaN = NaN).
Proof.
  intros Hlen.
  exists (calc_jdk_rs_ratio data), (calc_jdk_rs_momentum (calc_jdk_rs_ratio data)).
  split; [| split; [apply Jdk.ratio_values | split; [apply Jdk.momentum_values |]]].
  - unfold calculate_jdk_rs.
    replace (length data <? 200)%nat with false
      by (symmetry; apply Nat.ltb_ge; exact Hlen).
    reflexivity.
  - intros i Hi. rewrite (Jdk.nth_momentum data i Hi). repeat split; intros Hb.
    + replace (i <? 20)%nat with true by (symmetry; apply Nat.ltb_lt; exact Hb).
      reflexivity.
    + replace (i <? 20)%nat with false by (symmetry; apply Nat.ltb_ge; exact Hb).
      reflexivity.
    + apply Jdk.ratio_head; assumption.
    + rewrite <- (Jdk.nth_momentum data i Hi). apply Jdk.momentum_head; assumption.
Qed.

Lemma jdk_rs_momentum_is_difference_witness :
  exists ratio momentum,
    calculate_jdk_rs Sample.flat_200 =
      Ok [("JDK RS Ratio"%string, ratio); ("JDK RS Momentum"%string, momentum)] /\
    index ratio = index Sample.flat_200 /\
    index momentum = index Sample.flat_200 /\
    forall i, (i < length Sample.flat_200)%nat ->
      ((i < 20)%nat -> nth i (values momentum) NaN = NaN) /\
      ((20 <= i)%nat ->
         nth i (values momentum) NaN =
           fsub (nth i (values ratio) NaN) (nth (i - 20) (values ratio) NaN)) /\
      ((i < 199)%nat -> nth i (values ratio) NaN = NaN) /\
      ((i < 219)%nat -> nth i (values momentum) NaN = NaN).
Proof.
  apply (jdk_rs_momentum_is_difference Sample.flat_200).
  rewrite Jdk.flat_200_length. lia.
Defined.

(** *** Constant series *)

Lemma window_constant (w i : nat) (vs : list float) (c : float) :
  Forall (fun v => v = c) vs -> (w <= i + 1)%nat -> (i < length vs)%nat ->
  window w i vs = repeat c w.
Proof.
  intros Hc Hw Hi.
  assert (HF : Forall (fun v => v = c) (window w i vs))
    by (unfold window; apply Jdk.Forall_firstn, Jdk.Forall_skipn, Hc).
  rewrite <- (window_length w i vs Hw Hi) at 2.
  induction HF as [| a l -> _ IH]; simpl; [| rewrite <- IH]; reflexivity.
Qed.

Lemma Rsum_repeat (c : R) (n : nat) :
  Rsum (map real_of (repeat (Fin c) n)) = INR n * c.
Proof.
  induction n as [| n IH]; [simpl; lra |].
  change (Rsum (map real_of (repeat (Fin c) (S n))))
    with (c + Rsum (map real_of (repeat (Fin c) n))).
  rewrite IH, S_INR. lra.
Qed.

Lemma rolling_mean_constant (w : nat) (vs : list float) (c : R) (i : nat) :
  Forall (fun v => v = Fin c) vs ->
  (0 < w)%nat -> (w <= i + 1)%nat -> (i < length vs)%nat ->
  nth i (rolling_mean_values w vs) NaN = Fin c.
Proof.
  intros Hc Hw Hi Hlen.
  rewrite rolling_mean_value; trivial.
  - unfold mean_at. rewrite (window_constant w i vs (Fin c) Hc Hi Hlen), Rsum_repeat.
    apply f_equal. field.
    apply Rgt_not_eq. apply lt_0_INR. exact Hw.
  - eapply Forall_impl; [| exact Hc]. intros a ->. reflexivity.
Qed.

(** X6. A series that is constant at a real number other than zero, such as
    the relative strength of an instrument against itself, has an RS Ratio
    of exactly 0 from position 199 on and an RS Momentum of exactly 0 from
    position 219 on. *)
Theorem constant_series_is_at_the_origin (data : Series) (c : R) (i : nat) :
  c <> 0 ->
  Forall (fun v => v = Fin c) (values data) ->
  (i < length data)%nat ->
  ((199 <= i)%nat -> nth i (values (calc_jdk_rs_ratio data)) NaN = Fin 0) /\
  ((219 <= i)%nat ->
     nth i (values (calc_jdk_rs_momentum (calc_jdk_rs_ratio data))) NaN = Fin 0).
Proof.
  intros Hc Hconst Hlen.
  assert (Hratio : forall k, (k < length data)%nat -> (199 <= k)%nat ->
            nth k (values (calc_jdk_rs_ratio data)) NaN = Fin 0).
  { intros k Hk Hk199. rewrite Jdk.nth_ratio by exact Hk.
    rewrite !(rolling_mean_constant _ (values data) c k Hconst)
      by (rewrite ?values_length; trivial; lia).
    simpl. real_tests. unfold fsub. simpl. apply f_equal. field. exact Hc. }
  split; intros Hi; [apply Hratio; assumption |].
  rewrite Jdk.nth_momentum by exact Hlen.
  replace (i <? 20)%nat with false by (symmetry; apply Nat.ltb_ge; lia).
  rewrite !Hratio by lia. unfold fsub. simpl. apply f_equal. lra.
Qed.

Lemma constant_series_is_at_the_origin_witness :
  nth 199 (values (calc_jdk_rs_ratio Sample.flat_200)) NaN = Fin 0.
Proof.
  refine (proj1 (constant_series_is_at_the_origin Sample.flat_200 1 199 _ _ _)
            (le_n 199)).
  - lra.
  - unfold Sample.flat_200. rewrite Jdk.daily_values.
    apply Forall_forall. intros a Ha. apply repeat_spec in Ha. exact Ha.
  - rewrite Jdk.flat_200_length. lia.
Defined.

(** *** A value that is missing *)

Lemma fsub_nan_l (a : float) : fsub NaN a = NaN.
Proof. reflexivity. Qed.

Lemma window_mean_missing (w : nat) (win : list float) (k : nat) :
  (k < length win)%nat -> is_finite (nth k win NaN) = false ->
  window_mean w win = NaN.
Proof.
  intros Hk Hmiss. unfold window_mean.
  destruct (forallb is_finite win) eqn:H; [| reflexivity].
  rewrite forallb_forall in H.
  rewrite (H (nth k win NaN) (nth_In win NaN Hk)) in Hmiss. discriminate.
Qed.

(** A window that holds a value that is not a real number has no mean. *)
Lemma rolling_mean_missing (w : nat) (vs : list float) (p i : nat) :
  is_finite (nth p vs NaN) = false ->
  (p <= i)%nat -> (i < p + w)%nat -> (i < length vs)%nat ->
  nth i (rolling_mean_values w vs) NaN = NaN.
Proof.
  intros Hmiss Hpi Hiw Hlen. rewrite nth_rolling_mean_values by exact Hlen.
  destruct (i + 1 <? w)%nat eqn:Hw; [reflexivity |].
  apply Nat.ltb_ge in Hw.
  apply (window_mean_missing w _ (p - (i + 1 - w))).
  - fold (window w i vs). rewrite window_length by assumption. lia.
  - fold (window w i vs). rewrite nth_window by lia.
    replace (i + 1 - w + (p - (i + 1 - w)))%nat with p by lia.
    exact Hmiss.
Qed.

Lemma ratio_missing (data : Series) (p i : nat) :
  is_finite (nth p (values data) NaN) = false ->
  (p <= i)%nat -> (i <= p + 199)%nat -> (i < length data)%nat ->
  nth i (values (calc_jdk_rs_ratio data)) NaN = NaN.
Proof.
  intros Hmiss Hpi Hi Hlen. rewrite Jdk.nth_ratio by exact Hlen.
  rewrite (rolling_mean_missing 200 (values data) p i)
    by (trivial; rewrite ?values_length; lia).
  rewrite Jdk.fdiv_nan_r. reflexivity.
Qed.

(** X8. One value of the input that is missing or infinite, at position
    [p], leaves the RS Ratio missing on the 200 positions from [p] to
    [p + 199] and the RS Momentum missing on the 220 positions from [p] to
    [p + 219]; nothing is raised for it. *)
Theorem missing_value_propagates (data : Series) (p i : nat) :
  is_finite (nth p (values data) NaN) = false ->
  (p <= i)%nat -> (i < length data)%nat ->
  ((i <= p + 199)%nat ->
     nth i (values (calc_jdk_rs_ratio data)) NaN = NaN) /\
  ((i <= p + 219)%nat ->
     nth i (values (calc_jdk_rs_momentum (calc_jdk_rs_ratio data))) NaN = NaN).
Proof.
  intros Hmiss Hpi Hlen. split; intros Hi.
  - apply (ratio_missing data p i); assumption.
  - rewrite Jdk.nth_momentum by exact Hlen.
    destruct (i <? 20)%nat eqn:H20; [reflexivity |].
    apply Nat.ltb_ge in H20.
    destruct (le_lt_dec i (p + 199)) as [Hnear | Hfar].
    + rewrite (ratio_missing data p i) by assumption. apply fsub_nan_l.
    + rewrite (ratio_missing data p (i - 20)) by (trivial; lia).
      apply Jdk.fsub_nan_r.
Qed.

Lemma missing_value_propagates_witness :
  nth 200 (values (calc_jdk_rs_ratio gap_300)) NaN = NaN /\
  nth 220 (values (calc_jdk_rs_momentum (calc_jdk_rs_ratio gap_300))) NaN = NaN.
Proof.
  assert (Hmiss : is_finite (nth 1 (values gap_300) NaN) = false)
    by reflexivity.
  assert (Hlen : length gap_300 = 300%nat) by reflexivity.
  split.
  - apply (proj1 (missing_value_propagates gap_300 1 200 Hmiss
                    ltac:(lia) ltac:(rewrite Hlen; lia))).
    lia.
  - apply (proj2 (missing_value_propagates gap_300 1 220 Hmiss
                    ltac:(lia) ltac:(rewrite Hlen; lia))).
    lia.
Defined.

End JdkValues.

(** ** The rows of the coordinates table *)

Module TableRows.
Import Pandas RrgToolkit Table Subscript Extrapolate Coordinates Derived.

(** A position inside the window of Python's subscripts has its row. *)
Lemma row_at_exists_in_window (etf : string) (x_series y_series : Series)
    (circle_radius : float) (j : Z) :
  length x_series = length y_series ->
  (- Z.of_nat (length x_series) <= j - 5 /\
   j + 1 < Z.of_nat (length x_series))%Z ->
  exists row, row_at etf x_series y_series circle_radius j row.
Proof.
  intros Hlen Hj.
  destruct (proj2 (extrapolate_window x_series y_series j Hlen)) as [e He];
    [lia |].
  destruct (proj2 (getitem_succeeds_iff (index x_series) j)) as [date Hd];
    [rewrite index_length; lia |].
  exists (make_row etf circle_radius e date), e, date. auto.
Qed.

(** With the two series of every instrument of one length [n], and
    [trailing_days >= 5 - n], every instrument has its block. *)
Lemma blocks_exist_in_window
    (jdk_rs_ratios jdk_rs_momentums : Frame (string * string))
    (trailing_days : Z) (circle_radius : float) (etf_names : list string) :
  (forall etf, In etf etf_names ->
     exists x_series y_series,
       get key_eqb jdk_rs_ratios (etf, "RS Ratio"%string) = Ok x_series /\
       get key_eqb jdk_rs_momentums (etf, "RS Ratio"%string) = Ok y_series /\
       length x_series = length y_series /\
       (5 - Z.of_nat (length x_series) <= trailing_days)%Z) ->
  exists blocks,
    Forall2 (block_of jdk_rs_ratios jdk_rs_momentums trailing_days circle_radius)
      etf_names blocks.
Proof.
  induction etf_names as [| etf names IH]; intros Hseries.
  - exists []. constructor.
  - destruct IH as [blocks HF];
      [intros e He; apply Hseries; right; exact He |].
    destruct (Hseries etf (or_introl eq_refl))
      as [x_series [y_series [Hx [Hy [Hlen Htd]]]]].
    destruct (rows_exist etf x_series y_series circle_radius
                (Py.range trailing_days (Z.of_nat (length x_series) - 1)))
      as [block HB].
    { intros j Hj. apply range_In in Hj.
      apply row_at_exists_in_window; [exact Hlen | lia]. }
    exists (block :: blocks). constructor; [| exact HF].
    exists x_series, y_series. auto.
Qed.

(** With [trailing_days >= 5], and the two series of every instrument of
    one length, every instrument has its block. *)
Lemma blocks_exist (jdk_rs_ratios jdk_rs_momentums : Frame (string * string))
    (trailing_days : Z) (circle_radius : float) (etf_names : list string) :
  (5 <= trailing_days)%Z ->
  (forall etf, In etf etf_names ->
     exists x_series y_series,
       get key_eqb jdk_rs_ratios (etf, "RS Ratio"%string) = Ok x_series /\
       get key_eqb jdk_rs_momentums (etf, "RS Ratio"%string) = Ok y_series /\
       length x_series = length y_series) ->
  exists blocks,
    Forall2 (block_of jdk_rs_ratios jdk_rs_momentums trailing_days circle_radius)
      etf_names blocks.
Proof.
  intros Htd Hseries. apply blocks_exist_in_window.
  intros etf He. destruct (Hseries etf He) as [xs [ys [Hx [Hy Hlen]]]].
  exists xs, ys. repeat split; trivial. lia.
Qed.



Lemma extract_etfs_app (jdk_rs_ratios jdk_rs_momentums : Frame (string * string))
    (trailing_days : Z) (circle_radius : float) (names names' : list string) :
  forall coordinates,
    extract_etfs (names ++ names') jdk_rs_ratios jdk_rs_momentums
      trailing_days circle_radius coordinates =
    (mid <- extract_etfs names jdk_rs_ratios jdk_rs_momentums
              trailing_days circle_radius coordinates ;;
     extract_etfs names' jdk_rs_ratios jdk_rs_momentums
       trailing_days circle_radius mid).
Proof.
  induction names as [| etf names IH]; intros coordinates; simpl;
    [reflexivity |].
  destruct (get key_eqb jdk_rs_ratios _); [reflexivity |].
  destruct (get key_eqb jdk_rs_momentums _); [reflexivity |].
  cbn [bind]. destruct (extract_rows _ _ _ _ _ _ _); [reflexivity |].
  cbn [bind]. apply IH.
Qed.

(** X10. An instrument without a column in one of the two frames makes
    [extract_coordinates] raise [KeyError], and no table is returned, also
    when the instruments listed before it (with [trailing_days >= 5], and
    series of one length) have all their rows. *)
Theorem extract_coordinates_key_error (before after : list string)
    (etf : string) (jdk_rs_ratios jdk_rs_momentums : Frame (string * string))
    (rs_ratios : Frame string) (trailing_days : Z) (circle_radius : float) :
  (5 <= trailing_days)%Z ->
  (forall name, In name before ->
     exists x_series y_series,
       get key_eqb jdk_rs_ratios (name, "RS Ratio"%string) = Ok x_series /\
       get key_eqb jdk_rs_momentums (name, "RS Ratio"%string) = Ok y_series /\
       length x_series = length y_series) ->
  lookup key_eqb (etf, "RS Ratio"%string) jdk_rs_ratios = None \/
  lookup key_eqb (etf, "RS Ratio"%string) jdk_rs_momentums = None ->
  raises (extract_coordinates (before ++ etf :: after) jdk_rs_ratios
            jdk_rs_momentums rs_ratios trailing_days circle_radius) KeyError.
Proof.
  intros Htd Hbefore Hmissing.
  destruct (blocks_exist jdk_rs_ratios jdk_rs_momentums trailing_days
              circle_radius before Htd Hbefore) as [blocks HF].
  assert (Hrun :
    extract_etfs before jdk_rs_ratios jdk_rs_momentums trailing_days
      circle_radius [] = Ok (concat blocks))
    by (apply extract_etfs_spec; exists blocks; auto).
  unfold raises, extract_coordinates. rewrite extract_etfs_app, Hrun.
  cbn [bind Ok extract_etfs]. unfold get.
  destruct Hmissing as [H | H].
  - rewrite H. reflexivity.
  - rewrite H.
    destruct (lookup key_eqb (etf, "RS Ratio"%string) jdk_rs_ratios);
      reflexivity.
Qed.

Lemma extract_coordinates_key_error_witness :
  raises (extract_coordinates (["A"%string] ++ "Z"%string :: ["A"%string])
            late_week_frame late_week_frame [] 5 (Fin (1 / 10))) KeyError.
Proof.
  apply (extract_coordinates_key_error ["A"%string] ["A"%string] "Z"%string
           late_week_frame late_week_frame [] 5 (Fin (1 / 10))).
  - lia.
  - intros name [<- | []]. exists late_week, late_week.
    repeat split; reflexivity.
  - left. reflexivity.
Defined.

(** X11. The table of a list of instruments is the table of its first part
    followed by the table of the rest: [extract_coordinates] returns on
    [names ++ names'] exactly when it returns on [names] and on [names'],
    and the rows are then those of [names] followed by those of [names']. *)
Theorem extract_coordinates_app (names names' : list string)
    (jdk_rs_ratios jdk_rs_momentums : Frame (string * string))
    (rs_ratios : Frame string) (trailing_days : Z) (circle_radius : float)
    (rows : list Row) :
  extract_coordinates (names ++ names') jdk_rs_ratios jdk_rs_momentums
    rs_ratios trailing_days circle_radius = Ok rows <->
  exists front back,
    extract_coordinates names jdk_rs_ratios jdk_rs_momentums rs_ratios
      trailing_days circle_radius = Ok front /\
    extract_coordinates names' jdk_rs_ratios jdk_rs_momentums rs_ratios
      trailing_days circle_radius = Ok back /\
    rows = front ++ back.
Proof.
  rewrite extract_coordinates_spec. split.
  - intros [blocks [HF ->]].
    apply Forall2_app_inv_l in HF.
    destruct HF as [front [back [Hfront [Hback ->]]]].
    exists (concat front), (concat back).
    split; [apply extract_coordinates_spec; exists front; auto |].
    split; [apply extract_coordinates_spec; exists back; auto |].
    apply concat_app.
  - intros [front [back [Hfront [Hback ->]]]].
    apply extract_coordinates_spec in Hfront. destruct Hfront as [bf [Hf ->]].
    apply extract_coordinates_spec in Hback. destruct Hback as [bb [Hb ->]].
    exists (bf ++ bb). split; [apply Forall2_app; assumption |].
    symmetry. apply concat_app.
Qed.

(** *** What a row holds *)







Lemma fmul_nan_l (a : float) : fmul NaN a = NaN.
Proof. reflexivity. Qed.




(** *** The rows follow the series *)

Lemma Forall2_nth_error {A B : Type} (R : A -> B -> Prop)
    (l : list A) (l' : list B) :
  Forall2 R l l' ->
  forall k b, nth_error l' k = Some b ->
  exists a, nth_error l k = Some a /\ R a b.
Proof.
  intros HF. induction HF as [| a b l l' Hab _ IH]; intros [| k] b' Hk;
    simpl in *; try discriminate.
  - injection Hk as <-. exists a. auto.
  - apply IH. exact Hk.
Qed.

Lemma nth_error_range (lo hi : Z) (k : nat) (j : Z) :
  nth_error (Py.range lo hi) k = Some j -> j = (lo + Z.of_nat k)%Z.
Proof.
  unfold Py.range. rewrite nth_error_map, nth_error_seq.
  destruct (k <? Z.to_nat (hi - lo))%nat; simpl; intros H;
    [injection H as <-; reflexivity | discriminate].
Qed.

Lemma getitem_value {A : Type} (l : list A) (j : Z) (a d : A) :
  (0 <= j)%Z -> Py.getitem l j = Ok a -> a = nth (Z.to_nat j) l d.
Proof.
  intros Hj H.
  destruct (getitem_cases l j) as [[Hin _] | [_ He]];
    [| rewrite He in H; discriminate].
  rewrite (getitem_front l j d) in H by lia. injection H as <-. reflexivity.
Qed.

(** What the fields of an extrapolation that returned were read from. *)
Lemma extrapolate_reads (x_series y_series : Series) (j : Z)
    (e : Extrapolation) :
  extrapolate_coordinates x_series y_series j = Ok e ->
  at_pos x_series j = Ok (x_point e) /\
  at_pos y_series j = Ok (y_point e) /\
  at_pos x_series (j - 5) = Ok (x_historic e) /\
  at_pos y_series (j - 5) = Ok (y_historic e) /\
  exists x_next y_next,
    at_pos x_series (j + 1) = Ok x_next /\
    at_pos y_series (j + 1) = Ok y_next /\
    moving_towards e = categorize_point x_next y_next.
Proof.
  unfold extrapolate_coordinates. intros He.
  destruct (at_pos x_series j); [discriminate |].
  destruct (at_pos y_series j); [discriminate |].
  destruct (at_pos x_series (j + 1)) as [| x_next]; [discriminate |].
  destruct (at_pos y_series (j + 1)) as [| y_next]; [discriminate |].
  destruct (at_pos x_series (j - 5)); [discriminate |].
  destruct (at_pos y_series (j - 5)); [discriminate |].
  injection He as <-. repeat split. exists x_next, y_next. repeat split.
Qed.

(** X14. With [trailing_days >= 5] the rows of an instrument follow its
    series day by day: row number [k] of the table of one instrument
    carries the date and the coordinates of position [trailing_days + k],
    the coordinates of five positions earlier as its historic point, the
    quadrant of its own point as 'Current Category', and the quadrant of
    the point of the next position as 'Projected Category'. *)
Theorem rows_follow_the_series (etf : string)
    (jdk_rs_ratios jdk_rs_momentums : Frame (string * string))
    (rs_ratios : Frame string) (trailing_days : Z) (circle_radius : float)
    (x_series y_series : Series) (rows : list Row) (k : nat) (row : Row) :
  (5 <= trailing_days)%Z ->
  get key_eqb jdk_rs_ratios (etf, "RS Ratio"%string) = Ok x_series ->
  get key_eqb jdk_rs_momentums (etf, "RS Ratio"%string) = Ok y_series ->
  extract_coordinates [etf] jdk_rs_ratios jdk_rs_momentums rs_ratios
    trailing_days circle_radius = Ok rows ->
  nth_error rows k = Some row ->
  ETF row = etf /\
  Date row = nth (Z.to_nat trailing_days + k) (index x_series) 0%Z /\
  Current_X row = nth (Z.to_nat trailing_days + k) (values x_series) NaN /\
  Current_Y row = nth (Z.to_nat trailing_days + k) (values y_series) NaN /\
  Historic_X row = nth (Z.to_nat trailing_days + k - 5) (values x_series) NaN /\
  Historic_Y row = nth (Z.to_nat trailing_days + k - 5) (values y_series) NaN /\
  Current_Category row = categorize_point (Current_X row) (Current_Y row) /\
  Projected_Category row =
    categorize_point
      (nth (Z.to_nat trailing_days + k + 1) (values x_series) NaN)
      (nth (Z.to_nat trailing_days + k + 1) (values y_series) NaN).
Proof.
  intros Htd Hx Hy Hrun Hk.
  apply extract_coordinates_spec in Hrun. destruct Hrun as [blocks [HF ->]].
  inversion HF as [| etf' block names blocks' Hblock Hrest]; subst.
  inversion Hrest; subst. simpl in Hk. rewrite app_nil_r in Hk.
  destruct Hblock as [xs [ys [Hx' [Hy' HB]]]].
  rewrite Hx in Hx'. injection Hx' as <-.
  rewrite Hy in Hy'. injection Hy' as <-.
  destruct (Forall2_nth_error _ _ _ HB k row Hk) as [j [Hj Hrow]].
  apply nth_error_range in Hj.
  destruct Hrow as [e [date [He [Hd ->]]]].
  destruct (extrapolate_reads _ _ _ _ He)
    as [Hxj [Hyj [Hxh [Hyh [x_next [y_next [Hxn [Hyn Hm]]]]]]]].
  cbn [make_row ETF Date Current_X Current_Y Historic_X Historic_Y
       Current_Category Projected_Category].
  unfold at_pos in *.
  rewrite (getitem_value _ j date 0%Z ltac:(lia) Hd).
  rewrite (getitem_value _ j (x_point e) NaN ltac:(lia) Hxj).
  rewrite (getitem_value _ j (y_point e) NaN ltac:(lia) Hyj).
  rewrite (getitem_value _ (j - 5) (x_historic e) NaN ltac:(lia) Hxh).
  rewrite (getitem_value _ (j - 5) (y_historic e) NaN ltac:(lia) Hyh).
  rewrite Hm.
  rewrite (getitem_value _ (j + 1) x_next NaN ltac:(lia) Hxn).
  rewrite (getitem_value _ (j + 1) y_next NaN ltac:(lia) Hyn).
  replace (Z.to_nat j) with (Z.to_nat trailing_days + k)%nat by lia.
  replace (Z.to_nat (j - 5)) with (Z.to_nat trailing_days + k - 5)%nat by lia.
  replace (Z.to_nat (j + 1)) with (Z.to_nat trailing_days + k + 1)%nat by lia.
  repeat split.
Qed.

Lemma rows_follow_the_series_witness :
  Date (make_row "A" (Fin (1 / 10)) Sample.month_day_20 20%Z)
    = nth (Z.to_nat 20 + 0) (index Sample.month_x) 0%Z /\
  Current_X (make_row "A" (Fin (1 / 10)) Sample.month_day_20 20%Z)
    = nth (Z.to_nat 20 + 0) (values Sample.month_x) NaN /\
  Historic_X (make_row "A" (Fin (1 / 10)) Sample.month_day_20 20%Z)
    = nth (Z.to_nat 20 + 0 - 5) (values Sample.month_x) NaN.
Proof.
  pose proof (rows_follow_the_series "A"%string Sample.month_ratios
                Sample.month_momentums [] 20 (Fin (1 / 10))
                Sample.month_x Sample.month_y
                [make_row "A" (Fin (1 / 10)) Sample.month_day_20 20%Z] 0
                (make_row "A" (Fin (1 / 10)) Sample.month_day_20 20%Z)
                ltac:(lia) eq_refl eq_refl month_table eq_refl)
    as [_ [Hd [Hx [_ [Hh _]]]]].
  split; [exact Hd |]. split; [exact Hx | exact Hh].
Defined.

(** *** Series that do not fit *)





(** *** A small [trailing_days] *)

Lemma getitem_value_back {A : Type} (l : list A) (j : Z) (a d : A) :
  (j < 0)%Z -> Py.getitem l j = Ok a ->
  a = nth (Z.to_nat (Z.of_nat (length l) + j)) l d.
Proof.
  intros Hj H.
  destruct (getitem_cases l j) as [[Hin _] | [_ He]];
    [| rewrite He in H; discriminate].
  rewrite (getitem_back l j d) in H by lia. injection H as <-. reflexivity.
Qed.

(** X18. With [0 <= trailing_days < 5] the rows of the positions [j < 5]
    do not look five positions back: when the table is returned, such a
    row takes as its historic point the point [5 - j] positions before the
    end of the series, because the position [j - 5] is negative and counts
    from the end. *)
Theorem small_trailing_days_wrap (etf : string)
    (jdk_rs_ratios jdk_rs_momentums : Frame (string * string))
    (rs_ratios : Frame string) (trailing_days : Z) (circle_radius : float)
    (x_series y_series : Series) (rows : list Row) (k : nat) (row : Row) :
  (0 <= trailing_days)%Z ->
  get key_eqb jdk_rs_ratios (etf, "RS Ratio"%string) = Ok x_series ->
  get key_eqb jdk_rs_momentums (etf, "RS Ratio"%string) = Ok y_series ->
  extract_coordinates [etf] jdk_rs_ratios jdk_rs_momentums rs_ratios
    trailing_days circle_radius = Ok rows ->
  nth_error rows k = Some row ->
  (Z.to_nat trailing_days + k < 5)%nat ->
  Current_X row = nth (Z.to_nat trailing_days + k) (values x_series) NaN /\
  Current_Y row = nth (Z.to_nat trailing_days + k) (values y_series) NaN /\
  Historic_X row =
    nth (length x_series - (5 - (Z.to_nat trailing_days + k)))
        (values x_series) NaN /\
  Historic_Y row =
    nth (length y_series - (5 - (Z.to_nat trailing_days + k)))
        (values y_series) NaN.
Proof.
  intros Htd Hx Hy Hrun Hk Hsmall.
  apply extract_coordinates_spec in Hrun. destruct Hrun as [blocks [HF ->]].
  inversion HF as [| etf' block names blocks' Hblock Hrest]; subst.
  inversion Hrest; subst. simpl in Hk. rewrite app_nil_r in Hk.
  destruct Hblock as [xs [ys [Hx' [Hy' HB]]]].
  rewrite Hx in Hx'. injection Hx' as <-.
  rewrite Hy in Hy'. injection Hy' as <-.
  destruct (Forall2_nth_error _ _ _ HB k row Hk) as [j [Hj Hrow]].
  apply nth_error_range in Hj.
  destruct Hrow as [e [date [He [Hd ->]]]].
  destruct (extrapolate_reads _ _ _ _ He) as [Hxj [Hyj [Hxh [Hyh _]]]].
  assert (Hxin : succeeds (at_pos x_series (j - 5)))
    by (eexists; exact Hxh).
  assert (Hyin : succeeds (at_pos y_series (j - 5)))
    by (eexists; exact Hyh).
  apply at_pos_succeeds_iff in Hxin. apply at_pos_succeeds_iff in Hyin.
  cbn [make_row Current_X Current_Y Historic_X Historic_Y].
  unfold at_pos in *.
  rewrite (getitem_value _ j (x_point e) NaN ltac:(lia) Hxj).
  rewrite (getitem_value _ j (y_point e) NaN ltac:(lia) Hyj).
  rewrite (getitem_value_back _ (j - 5) (x_historic e) NaN ltac:(lia) Hxh).
  rewrite (getitem_value_back _ (j - 5) (y_historic e) NaN ltac:(lia) Hyh).
  rewrite !values_length.
  replace (Z.to_nat j) with (Z.to_nat trailing_days + k)%nat by lia.
  replace (Z.to_nat (Z.of_nat (length x_series) + (j - 5)))
    with (length x_series - (5 - (Z.to_nat trailing_days + k)))%nat by lia.
  replace (Z.to_nat (Z.of_nat (length y_series) + (j - 5)))
    with (length y_series - (5 - (Z.to_nat trailing_days + k)))%nat by lia.
  repeat split.
Qed.

Lemma small_trailing_days_wrap_witness :
  exists rows row,
    extract_coordinates ["A"%string] week_ratios week_momentums [] 0
      (Fin (1 / 10)) = Ok rows /\
    nth_error rows 0 = Some row /\
    Current_X row = Fin 3 /\
    Historic_X row = Fin 5.
Proof.
  destruct (blocks_exist_in_window week_ratios week_momentums 0 (Fin (1 / 10))
              ["A"%string]) as [blocks HF].
  { intros etf [<- | []]. exists Sample.week_x, Sample.week_y.
    repeat split; try reflexivity. simpl. lia. }
  assert (Hrun :
    extract_coordinates ["A"%string] week_ratios week_momentums [] 0
      (Fin (1 / 10)) = Ok (concat blocks))
    by (apply extract_coordinates_spec; exists blocks; auto).
  inversion HF as [| etf block names blocks' Hblock Hrest]; subst.
  inversion Hrest; subst.
  destruct Hblock as [xs [ys [Hx [Hy HB]]]].
  injection Hx as <-. injection Hy as <-.
  change (Py.range 0 (Z.of_nat (length Sample.week_x) - 1))
    with [0; 1; 2; 3; 4; 5]%Z in HB.
  inversion HB as [| j row js block' Hrow HB']; subst.
  exists (concat [row :: block']), row.
  split; [exact Hrun |]. split; [reflexivity |].
  pose proof (small_trailing_days_wrap "A"%string week_ratios week_momentums
                [] 0 (Fin (1 / 10)) Sample.week_x Sample.week_y
                (concat [row :: block']) 0 row ltac:(lia) eq_refl eq_refl
                Hrun eq_refl ltac:(simpl; lia)) as [Hc [_ [Hh _]]].
  split; [exact Hc | exact Hh].
Defined.

End TableRows.

(** ** The signal and the radius *)

Module Direction.
Import Pandas RrgToolkit Subscript Extrapolate.

#[local] Open Scope string_scope.

Lemma fle_widen (d : float) (r r' : R) :
  r <= r' -> fle d (Fin r) = true -> fle d (Fin r') = true.
Proof.
  intros Hr. destruct d as [| | | x]; simpl; trivial.
  intros H. apply Rleb_true in H. apply Rleb_true. lra.
Qed.

(** X16. A wider circle never turns a weak signal into a strong one: for
    any point, also one with a missing or infinite coordinate, and two
    real radii [r <= r'], a signal that is ['Weak'] for the radius [r] is
    ['Weak'] for [r'], and one that is ['Strong'] for [r'] is ['Strong']
    for [r]. *)
Theorem categorize_radius_monotone (x y : float) (r r' : R) :
  r <= r' ->
  (categorize_radius x y (Fin r) = "Weak" ->
   categorize_radius x y (Fin r') = "Weak") /\
  (categorize_radius x y (Fin r') = "Strong" ->
   categorize_radius x y (Fin r) = "Strong").
Proof.
  intros Hr. unfold categorize_radius.
  pose proof (fle_widen (Numpy.sqrt (fadd (fsquare x) (fsquare y))) r r' Hr)
    as Hw.
  destruct (fle _ (Fin r)) eqn:H1.
  - rewrite (Hw eq_refl). split; [reflexivity | discriminate].
  - split; [discriminate | reflexivity].
Qed.

Lemma categorize_radius_monotone_witness :
  categorize_radius (Fin (1 / 10)) (Fin 0) (Fin 1) = "Weak".
Proof.
  apply (proj1 (categorize_radius_monotone (Fin (1 / 10)) (Fin 0) (1 / 10) 1
                  ltac:(lra))).
  rewrite Categorize.categorize_radius_fin.
  replace (1 / 10 * (1 / 10) + 0 * 0) with ((1 / 10) * (1 / 10)) by ring.
  rewrite sqrt_square by lra. real_tests. reflexivity.
Defined.

End Direction.
